(** * FrenchDeck: the card deck of data_structures/card_deck.py

    A shallow embedding of the [Card] record and of the [FrenchDeck] class:
    its class attributes, its constructor, [__len__], [__getitem__] (integer
    positions and slices) and [spades_high], together with the two traversals
    Python derives from [__len__] and [__getitem__] (the legacy iteration
    protocol and [reversed]).  Python integers are [Z], strings are
    [string], the dictionary [suit_values] is a [gmap], and an operation
    that can raise returns a sum whose left side is the exception. *)

From stdpp Require Import gmap strings list fin_maps.
From Stdlib Require Import Ascii ZArith Lia.

Open Scope Z_scope.

(** ** Exceptions and results *)

Inductive exn : Type :=
  | IndexError
  | ValueError
  | KeyError.

Definition result (A : Type) : Type := exn + A.

Abbreviation Ok := (@inr exn _).
Abbreviation Raise := (@inl exn _).

(** Sequencing: an exception raised by the first computation propagates. *)
#[global] Instance result_bind : MBind result :=
  fun A B (k : A -> result B) (m : result A) =>
    match m with
    | inl e => inl e
    | inr a => k a
    end.

Definition raises {A : Type} (m : result A) : Prop := exists e, m = Raise e.
Definition returns {A : Type} (m : result A) : Prop := exists a, m = Ok a.

(** ** Card *)

(** [Card = collections.namedtuple('Card', ['rank', 'suit'])] *)
Record Card : Type := mkCard { rank : string; suit : string }.

#[global] Instance Card_eq_dec : EqDecision Card.
Proof. solve_decision. Defined.

(** ** Python list primitives used by the class *)

(** [range(lo, hi)] as a list of integers. *)
Definition range (lo hi : Z) : list Z :=
  map (fun k => lo + Z.of_nat k) (seq 0 (Z.to_nat (hi - lo))).

(** [str(n)]: the decimal digits of an integer. *)
Definition digit (d : Z) : string :=
  String (Ascii.ascii_of_nat (48 + Z.to_nat d)) EmptyString.

Fixpoint str_pos (fuel : nat) (n : Z) : string :=
  match fuel with
  | O => EmptyString
  | S fuel' =>
      if n <? 10 then digit n
      else str_pos fuel' (n / 10) +:+ digit (n mod 10)
  end.

Definition str (n : Z) : string :=
  if n <? 0 then "-" +:+ str_pos (Z.to_nat (- n)) (- n)
  else str_pos (S (Z.to_nat n)) n.

(** [list(s)]: the one-character strings of [s]. *)
Fixpoint list_of_string (s : string) : list string :=
  match s with
  | EmptyString => []
  | String a s' => String a EmptyString :: list_of_string s'
  end.

(** [s.split()] on a string whose only whitespace is the space character:
    the maximal runs of other characters. *)
Fixpoint split_aux (cur : string) (s : string) : list string :=
  match s with
  | EmptyString => if decide (cur = EmptyString) then [] else [cur]
  | String a s' =>
      if decide (a = " "%char)
      then (if decide (cur = EmptyString) then split_aux EmptyString s'
            else cur :: split_aux EmptyString s')
      else split_aux (cur +:+ String a EmptyString) s'
  end.

Definition split (s : string) : list string := split_aux EmptyString s.

(** [l.index(x)]: the position of the first element equal to [x], or
    [ValueError]. *)
Fixpoint index_from (i : Z) (l : list string) (x : string) : result Z :=
  match l with
  | [] => Raise ValueError
  | y :: l' => if decide (y = x) then Ok i else index_from (i + 1) l' x
  end.

Definition index (l : list string) (x : string) : result Z := index_from 0 l x.

(** [d[k]] on a dictionary: the value, or [KeyError]. *)
Definition dict_get (d : gmap string Z) (k : string) : result Z :=
  match d !! k with
  | Some v => Ok v
  | None => Raise KeyError
  end.

(** [l[i]] on a list, for an integer [i]: negative positions count from the
    end; anything outside [-len, len) raises [IndexError]. *)
Definition list_getitem {A : Type} (l : list A) (i : Z) : result A :=
  let n := Z.of_nat (length l) in
  let j := if i <? 0 then i + n else i in
  if (j <? 0) || (n <=? j) then Raise IndexError
  else match l !! Z.to_nat j with
       | Some a => Ok a
       | None => Raise IndexError
       end.

(** Slice bounds of [l[start:stop]] (step 1), as [slice.indices] adjusts
    them: a missing bound is the list's end on its side, a negative bound
    counts from the end, and what still overruns is clamped. *)
Definition adjust_index (n : Z) (i : Z) : Z :=
  if i <? 0 then (if i + n <? 0 then 0 else i + n)
  else if n <=? i then n else i.

Definition slice_start (n : Z) (start : option Z) : Z :=
  match start with
  | None => 0
  | Some i => adjust_index n i
  end.

Definition slice_stop (n : Z) (stop : option Z) : Z :=
  match stop with
  | None => n
  | Some i => adjust_index n i
  end.

Definition list_getslice {A : Type} (l : list A) (start stop : option Z) : list A :=
  let n := Z.of_nat (length l) in
  let lo := slice_start n start in
  let hi := slice_stop n stop in
  take (Z.to_nat (hi - lo)) (drop (Z.to_nat lo) l).

(** ** FrenchDeck *)

(** What [deck[...]] is given: an integer or a slice [start:stop]. *)
Inductive position : Type :=
  | Int (i : Z)
  | Slice (start stop : option Z).

(** What [deck[...]] gives back: one card, or a new list of cards. *)
Inductive item : Type :=
  | ACard (c : Card)
  | Cards (l : list Card).

Module FrenchDeck.

(** Class attributes. *)
Definition ranks : list string :=
  map str (range 2 11) ++ list_of_string "JQKA".

Definition suits : list string := split "spades diamonds clubs hearts".

Definition suit_values : gmap string Z :=
  <["spades" := 3]> (<["hearts" := 2]> (<["diamonds" := 1]> (<["clubs" := 0]> ∅))).

(** An instance: its only attribute is [_cards]. *)
Record t : Type := mk { _cards : list Card }.

Definition __init__ : t :=
  {| _cards := s ← suits; r ← ranks; [mkCard r s] |}.

Definition __len__ (self : t) : Z := Z.of_nat (length (_cards self)).

Definition __getitem__ (self : t) (p : position) : result item :=
  match p with
  | Int i => c ← list_getitem (_cards self) i; Ok (ACard c)
  | Slice start stop => Ok (Cards (list_getslice (_cards self) start stop))
  end.

Definition spades_high (self : t) (card : Card) : result Z :=
  rank_value ← index ranks (rank card);
  w ← dict_get suit_values (suit card);
  Ok (rank_value * Z.of_nat (size suit_values) + w).

End FrenchDeck.

(** ** Traversals derived from [__len__] and [__getitem__]

    The class defines neither [__iter__] nor [__reversed__].  [for card in
    deck] therefore asks [deck[0]], [deck[1]], ... until [IndexError]; and
    [reversed(deck)] asks [len(deck)] once and then [deck[n-1]], ...,
    [deck[0]]. *)

(** Forward traversal from position [i].  The loop ends only when
    [__getitem__] raises, so it is driven by fuel: [None] means the fuel
    ran out before [IndexError] was met. *)
Fixpoint iter_from (fuel : nat) (self : FrenchDeck.t) (i : Z)
  : option (result (list item)) :=
  match fuel with
  | O => None
  | S fuel' =>
      match FrenchDeck.__getitem__ self (Int i) with
      | inl IndexError => Some (Ok [])
      | inl e => Some (Raise e)
      | inr x =>
          match iter_from fuel' self (i + 1) with
          | None => None
          | Some (inl e) => Some (Raise e)
          | Some (inr rest) => Some (Ok (x :: rest))
          end
      end
  end.

Definition iter (fuel : nat) (self : FrenchDeck.t) : option (result (list item)) :=
  iter_from fuel self 0.

(** Backward traversal: [k] positions remain, the next one asked is [k-1]. *)
Fixpoint reversed_from (self : FrenchDeck.t) (k : nat) : result (list item) :=
  match k with
  | O => Ok []
  | S k' =>
      match FrenchDeck.__getitem__ self (Int (Z.of_nat k')) with
      | inl IndexError => Ok []
      | inl e => Raise e
      | inr x => rest ← reversed_from self k'; Ok (x :: rest)
      end
  end.

Definition reversed (self : FrenchDeck.t) : result (list item) :=
  reversed_from self (Z.to_nat (FrenchDeck.__len__ self)).

(** ** Programs over several instances

    [ranks], [suits] and [suit_values] are attributes of the class object:
    mutable objects shared by all instances.  [__init__] reads [self.suits]
    and [self.ranks] when it is called, and [spades_high] reads
    [FrenchDeck.ranks] and [self.suit_values] when it is called, so what they
    see is whatever the class object holds at that moment.  A client program
    is a sequence of statements on the class and its instances; every
    [FrenchDeck()] allocates a new object, and objects are named by their
    allocation number. *)

Module Program.

(** The class object. *)
Record class_object : Type := mk_class {
  ranks : list string;
  suits : list string;
  suit_values : gmap string Z
}.

(** The class object once the class body has run. *)
Definition class_body : class_object :=
  {| ranks := FrenchDeck.ranks;
     suits := FrenchDeck.suits;
     suit_values := FrenchDeck.suit_values |}.

(** [__init__], reading the class attributes at call time. *)
Definition __init__ (cls : class_object) : FrenchDeck.t :=
  {| FrenchDeck._cards := s ← suits cls; r ← ranks cls; [mkCard r s] |}.

(** [spades_high], reading the class attributes at call time. *)
Definition spades_high (cls : class_object) (self : FrenchDeck.t) (card : Card)
  : result Z :=
  rank_value ← index (ranks cls) (rank card);
  w ← dict_get (suit_values cls) (suit card);
  Ok (rank_value * Z.of_nat (size (suit_values cls)) + w).

Record state : Type := mk_state {
  cls : class_object;
  objects : list FrenchDeck.t
}.


Inductive stmt : Type :=
  | New                                    (* FrenchDeck() *)
  | Len (o : nat)                          (* len(o) *)
  | GetItem (o : nat) (p : position)       (* o[p] *)
  | SpadesHigh (o : nat) (c : Card)        (* o.spades_high(c) *)
  | SetRanks (l : list string)             (* FrenchDeck.ranks becomes l *)
  | SetSuits (l : list string)             (* FrenchDeck.suits becomes l *)
  | SetSuitValue (k : string) (v : Z).     (* FrenchDeck.suit_values[k] = v *)

Inductive value : Type :=
  | VRef (o : nat)
  | VInt (n : Z)
  | VItem (x : item)
  | VExn (e : exn)
  | VNone
  | VNoObject.

Definition value_of {A : Type} (f : A -> value) (m : result A) : value :=
  match m with
  | inl e => VExn e
  | inr a => f a
  end.

Definition on_object (st : state) (o : nat) (f : FrenchDeck.t -> value) : value :=
  match objects st !! o with
  | Some d => f d
  | None => VNoObject
  end.

Definition step (st : state) (c : stmt) : state * value :=
  match c with
  | New =>
      ({| cls := cls st; objects := objects st ++ [__init__ (cls st)] |},
       VRef (length (objects st)))
  | Len o => (st, on_object st o (fun d => VInt (FrenchDeck.__len__ d)))
  | GetItem o p =>
      (st, on_object st o (fun d => value_of VItem (FrenchDeck.__getitem__ d p)))
  | SpadesHigh o c =>
      (st, on_object st o (fun d => value_of VInt (spades_high (cls st) d c)))
  | SetRanks l =>
      ({| cls := {| ranks := l; suits := suits (cls st);
                    suit_values := suit_values (cls st) |};
          objects := objects st |}, VNone)
  | SetSuits l =>
      ({| cls := {| ranks := ranks (cls st); suits := l;
                    suit_values := suit_values (cls st) |};
          objects := objects st |}, VNone)
  | SetSuitValue k v =>
      ({| cls := {| ranks := ranks (cls st); suits := suits (cls st);
                    suit_values := <[k := v]> (suit_values (cls st)) |};
          objects := objects st |}, VNone)
  end.

(** The state a program ends in. *)
Fixpoint exec (st : state) (prog : list stmt) : state :=
  match prog with
  | [] => st
  | c :: prog' => exec (step st c).1 prog'
  end.


End Program.

(** ** The operations under the names the specification gives them *)

Definition deck : FrenchDeck.t := FrenchDeck.__init__.

Module CardCollection.

Definition size (d : FrenchDeck.t) : Z := FrenchDeck.__len__ d.

Definition at_ (d : FrenchDeck.t) (p : Z) : result item :=
  FrenchDeck.__getitem__ d (Int p).

Definition slice (d : FrenchDeck.t) (start stop : Z) : result item :=
  FrenchDeck.__getitem__ d (Slice (Some start) (Some stop)).

Definition rankValue (d : FrenchDeck.t) (c : Card) : result Z :=
  FrenchDeck.spades_high d c.

End CardCollection.

(** A slice bound as the specification reads it: a bound outside the
    valid range [-n, n] is clamped to it, and a negative bound then counts
    from the end, as a position does. *)
Definition clamp_bound (n i : Z) : Z :=
  let i' := Z.max (- n) (Z.min n i) in
  if i' <? 0 then i' + n else i'.

(** The suits from the lowest to the highest, as the specification ranks
    them. *)
Definition suit_order : list string := ["clubs"; "diamonds"; "hearts"; "spades"].

(** The suit weights as the specification lists them. *)
Definition suit_weight (s : string) : option Z :=
  if decide (s = "spades") then Some 3
  else if decide (s = "hearts") then Some 2
  else if decide (s = "diamonds") then Some 1
  else if decide (s = "clubs") then Some 0
  else None.

(** ** The demonstration script of card_deck.py

    What the script under [if __name__ == "__main__"] computes with a deck:
    membership tests, filtered lists, sets of suits and ranks, the highest
    and lowest card under a key, and slices with an open bound. *)

(** [deck[i]] for an integer [i]: the element of [_cards], a card. *)
Definition getcard (d : FrenchDeck.t) (i : Z) : result Card :=
  list_getitem (FrenchDeck._cards d) i.

(** [for card in deck], collected: positions 0, 1, ... until [IndexError]. *)
Fixpoint cards_from (fuel : nat) (d : FrenchDeck.t) (i : Z)
  : option (result (list Card)) :=
  match fuel with
  | O => None
  | S fuel' =>
      match getcard d i with
      | inl IndexError => Some (Ok [])
      | inl e => Some (Raise e)
      | inr x =>
          match cards_from fuel' d (i + 1) with
          | None => None
          | Some (inl e) => Some (Raise e)
          | Some (inr rest) => Some (Ok (x :: rest))
          end
      end
  end.

Definition list_of_deck (fuel : nat) (d : FrenchDeck.t)
  : option (result (list Card)) :=
  cards_from fuel d 0.

(** Continue with the cards of a traversal that ended normally. *)
Definition with_cards {B : Type} (t : option (result (list Card)))
    (f : list Card -> result B) : option (result B) :=
  match t with
  | None => None
  | Some (inl e) => Some (Raise e)
  | Some (inr cards) => Some (f cards)
  end.

(** [card in deck]: the class has no [__contains__], so the positions are
    tried in order until one holds an equal card or [IndexError] ends the
    search. *)
Fixpoint contains_from (fuel : nat) (d : FrenchDeck.t) (c : Card) (i : Z)
  : option (result bool) :=
  match fuel with
  | O => None
  | S fuel' =>
      match getcard d i with
      | inl IndexError => Some (Ok false)
      | inl e => Some (Raise e)
      | inr x =>
          if decide (x = c) then Some (Ok true)
          else contains_from fuel' d c (i + 1)
      end
  end.

Definition contains (fuel : nat) (d : FrenchDeck.t) (c : Card)
  : option (result bool) :=
  contains_from fuel d c 0.

(** [[card for card in deck if card.rank == target_rank]] *)
Definition cards_of_rank (fuel : nat) (d : FrenchDeck.t) (target_rank : string)
  : option (result (list Card)) :=
  with_cards (list_of_deck fuel d)
    (fun cards => Ok (filter (fun card => rank card = target_rank) cards)).

(** [[card for card in deck if card.suit == target_suit]] *)
Definition cards_of_suit (fuel : nat) (d : FrenchDeck.t) (target_suit : string)
  : option (result (list Card)) :=
  with_cards (list_of_deck fuel d)
    (fun cards => Ok (filter (fun card => suit card = target_suit) cards)).

(** [set(card.suit for card in deck)] and [set(card.rank for card in deck)] *)
Definition suits_in_deck (fuel : nat) (d : FrenchDeck.t)
  : option (result (gset string)) :=
  with_cards (list_of_deck fuel d)
    (fun cards => Ok (list_to_set (suit <$> cards))).

Definition ranks_in_deck (fuel : nat) (d : FrenchDeck.t)
  : option (result (gset string)) :=
  with_cards (list_of_deck fuel d)
    (fun cards => Ok (list_to_set (rank <$> cards))).

(** [max(iterable, key=...)] and [min(iterable, key=...)]: the first item
    is the candidate, and a later item replaces it only when its key is
    strictly better ([>] for [max], [<] for [min]); an empty iterable raises
    [ValueError]; an exception of the key propagates. *)
Fixpoint best_loop {A K : Type} (better : K -> K -> bool) (key : A -> result K)
    (best : A) (best_val : K) (l : list A) : result A :=
  match l with
  | [] => Ok best
  | x :: l' =>
      val ← key x;
      if better val best_val then best_loop better key x val l'
      else best_loop better key best best_val l'
  end.

Definition best_by {A K : Type} (better : K -> K -> bool) (key : A -> result K)
    (l : list A) : result A :=
  match l with
  | [] => Raise ValueError
  | x :: l' => val ← key x; best_loop better key x val l'
  end.

Definition max_key {A : Type} (key : A -> result Z) (l : list A) : result A :=
  best_by Z.gtb key l.

Definition min_key {A : Type} (key : A -> result Z) (l : list A) : result A :=
  best_by Z.ltb key l.

(** [max(deck, key=deck.spades_high)] and [min(deck, key=deck.spades_high)] *)
Definition highest_card (fuel : nat) (d : FrenchDeck.t) : option (result Card) :=
  with_cards (list_of_deck fuel d) (max_key (FrenchDeck.spades_high d)).

Definition lowest_card (fuel : nat) (d : FrenchDeck.t) : option (result Card) :=
  with_cards (list_of_deck fuel d) (min_key (FrenchDeck.spades_high d)).

(** [max(deck, key=lambda card: card.rank)] and the same with [min]: the
    keys are strings, compared as Python compares strings. *)
Definition str_gt (a b : string) : bool := String.ltb b a.
Definition str_lt (a b : string) : bool := String.ltb a b.

Definition highest_rank_alphabetically (fuel : nat) (d : FrenchDeck.t)
  : option (result Card) :=
  with_cards (list_of_deck fuel d) (best_by str_gt (fun card => Ok (rank card))).

Definition lowest_rank_alphabetically (fuel : nat) (d : FrenchDeck.t)
  : option (result Card) :=
  with_cards (list_of_deck fuel d) (best_by str_lt (fun card => Ok (rank card))).

(** [deck[start:stop]] for a slice: the sub-list of [_cards]. *)
Definition getslice (d : FrenchDeck.t) (start stop : option Z) : list Card :=
  list_getslice (FrenchDeck._cards d) start stop.

(** [deck[:n]], [deck[n:]] and [list(reversed(deck[-n:]))] *)
Definition deck_upto (d : FrenchDeck.t) (n : Z) : list Card :=
  getslice d None (Some n).

Definition deck_from (d : FrenchDeck.t) (n : Z) : list Card :=
  getslice d (Some n) None.

Definition reversed_tail (d : FrenchDeck.t) (n : Z) : list Card :=
  reverse (getslice d (Some (- n)) None).

(** ** unpacking_examples.py *)

Module Unpacking.

(** [a, b = seq] *)
Definition unpack2 {A : Type} (l : list A) : result (A * A) :=
  match l with
  | [a; b] => Ok (a, b)
  | _ => Raise ValueError
  end.

(** [a, b, c, d = seq] *)
Definition unpack4 {A : Type} (l : list A) : result (A * A * A * A) :=
  match l with
  | [a; b; c; d] => Ok (a, b, c, d)
  | _ => Raise ValueError
  end.

(** [*init, last = seq] *)
Definition unpack_star_last {A : Type} (l : list A) : result (list A * A) :=
  match last l with
  | Some x => Ok (take (length l - 1) l, x)
  | None => Raise ValueError
  end.

(** [first, *middle, last = seq] *)
Definition unpack_first_star_last {A : Type} (l : list A)
  : result (A * list A * A) :=
  match l with
  | [] => Raise ValueError
  | first :: rest =>
      match last rest with
      | Some x => Ok (first, take (length rest - 1) rest, x)
      | None => Raise ValueError
      end
  end.

(** [s.split(sep)] for a one-character separator: never empty. *)
Fixpoint split_char (sep : ascii) (s : string) : list string :=
  match s with
  | EmptyString => [EmptyString]
  | String a s' =>
      if decide (a = sep) then EmptyString :: split_char sep s'
      else match split_char sep s' with
           | [] => [String a EmptyString]
           | w :: ws => String a w :: ws
           end
  end.

(** [s.rsplit(sep, 1)] for a one-character separator: cut at the last
    occurrence, or the whole string alone when there is none. *)
Fixpoint rsplit_last (sep : ascii) (s : string) : option (string * string) :=
  match s with
  | EmptyString => None
  | String a s' =>
      match rsplit_last sep s' with
      | Some (before, after) => Some (String a before, after)
      | None => if decide (a = sep) then Some (EmptyString, s') else None
      end
  end.

Definition rsplit1 (sep : ascii) (s : string) : list string :=
  match rsplit_last sep s with
  | Some (before, after) => [before; after]
  | None => [s]
  end.

(** [sep.join(l)] *)
Fixpoint join (sep : string) (l : list string) : string :=
  match l with
  | [] => EmptyString
  | [x] => x
  | x :: l' => x +:+ sep +:+ join sep l'
  end.

(** [c in s] for a one-character [c] *)
Fixpoint has_char (c : ascii) (s : string) : bool :=
  match s with
  | EmptyString => false
  | String a s' => if decide (a = c) then true else has_char c s'
  end.

(** [s.count(c)] for a one-character [c] *)
Fixpoint count_char (c : ascii) (s : string) : nat :=
  match s with
  | EmptyString => O
  | String a s' => if decide (a = c) then S (count_char c s') else count_char c s'
  end.

(** star_unpacking_examples: [first, *middle, last = numbers] *)
Definition first_middle_last {A : Type} (numbers : list A)
  : result (A * list A * A) :=
  unpack_first_star_last numbers.

(** practical_examples: [first, last, position, salary = line.split(',')] *)
Definition csv_fields (line : string)
  : result (string * string * string * string) :=
  unpack4 (split_char "," line).

(** practical_examples, the body of the loop over [file_paths]: the
    bindings [directories], [filename], [name], [extension]. *)
Definition path_parts (path : string)
  : result (list string * string * string * string) :=
  '(directories, filename) ← unpack_star_last (split_char "/" path);
  '(name, extension) ←
    (if has_char "." filename then unpack2 (rsplit1 "." filename)
     else Ok (filename, EmptyString));
  Ok (directories, filename, name, extension).

(** The end of line that every [print] call writes after its text. *)
Definition newline : string := String (ascii_of_nat 10) EmptyString.

(** The text the loop body writes for one path: three [print] calls, each
    writing its argument and an end of line (the third has no argument). *)
Definition file_analysis (path : string) : result string :=
  '(directories, _, name, extension) ← path_parts path;
  Ok (("Path: " +:+ join "/" directories +:+ "/") +:+ newline +:+
      ("File: " +:+ name +:+ "." +:+ extension) +:+ newline +:+
      newline).

End Unpacking.

(** * Properties *)

(** ** The class attributes, evaluated *)

Lemma ranks_eval :
  FrenchDeck.ranks = ["2";"3";"4";"5";"6";"7";"8";"9";"10";"J";"Q";"K";"A"].
Proof. vm_compute. reflexivity. Qed.

Lemma suits_eval : FrenchDeck.suits = ["spades";"diamonds";"clubs";"hearts"].
Proof. vm_compute. reflexivity. Qed.

Lemma size_suit_values : size FrenchDeck.suit_values = 4%nat.
Proof. vm_compute. reflexivity. Qed.

Lemma cards_flat :
  FrenchDeck._cards deck =
  s ← FrenchDeck.suits; (fun r => mkCard r s) <$> FrenchDeck.ranks.
Proof. vm_compute. reflexivity. Qed.

Lemma length_cards : length (FrenchDeck._cards deck) = 52%nat.
Proof. vm_compute. reflexivity. Qed.

(** ** Integer positions on a list *)

(** Decide the integer tests of the goal, closing impossible branches
    arithmetically. *)
Ltac no_test a :=
  lazymatch a with
  | context [ if _ then _ else _ ] => fail
  | _ => idtac
  end.

Ltac ztests :=
  cbv zeta;
  repeat (match goal with
          | |- context [ (?a <? ?b)%Z ] =>
              no_test a; no_test b; destruct (Z.ltb_spec a b); try lia
          | |- context [ (?a <=? ?b)%Z ] =>
              no_test a; no_test b; destruct (Z.leb_spec a b); try lia
          end; cbn [orb andb]; cbv iota).

Section list_getitem.
Context {A : Type}.
Implicit Types (l : list A) (i : Z) (n : nat) (a : A).

Lemma list_getitem_nonneg l n a :
  l !! n = Some a -> list_getitem l (Z.of_nat n) = Ok a.
Proof.
  intros Hn. pose proof (lookup_lt_Some _ _ _ Hn) as Hlt.
  unfold list_getitem. ztests.
  rewrite Nat2Z.id, Hn. reflexivity.
Qed.

Lemma list_getitem_from_end l i :
  - Z.of_nat (length l) <= i < 0 ->
  list_getitem l i = list_getitem l (i + Z.of_nat (length l)).
Proof.
  intros Hi. unfold list_getitem. ztests. reflexivity.
Qed.

Lemma list_getitem_in_range l i :
  - Z.of_nat (length l) <= i < Z.of_nat (length l) ->
  exists a, list_getitem l i = Ok a /\ a ∈ l.
Proof.
  intros Hi.
  assert (Hpos : forall j, 0 <= j < Z.of_nat (length l) ->
                   exists a, list_getitem l j = Ok a /\ a ∈ l).
  { intros j Hj.
    destruct (lookup_lt_is_Some_2 l (Z.to_nat j)) as [a Ha]; [lia|].
    exists a. split.
    - rewrite <- (Z2Nat.id j) by lia. by apply list_getitem_nonneg.
    - apply list_elem_of_lookup. eauto. }
  destruct (Z_lt_le_dec i 0) as [Hneg|Hnn].
  - rewrite list_getitem_from_end by lia. apply Hpos. lia.
  - apply Hpos. lia.
Qed.

Lemma list_getitem_out_of_range l i :
  i < - Z.of_nat (length l) \/ Z.of_nat (length l) <= i ->
  list_getitem l i = Raise IndexError.
Proof.
  intros Hi. unfold list_getitem. ztests; reflexivity.
Qed.

Lemma list_getitem_Ok_elem l i a : list_getitem l i = Ok a -> a ∈ l.
Proof.
  intros Hi.
  destruct (Z_lt_le_dec i (- Z.of_nat (length l))) as [?|?];
    [rewrite list_getitem_out_of_range in Hi by lia; discriminate|].
  destruct (Z_lt_le_dec i (Z.of_nat (length l))) as [?|?];
    [|rewrite list_getitem_out_of_range in Hi by lia; discriminate].
  destruct (list_getitem_in_range l i) as (b & Hb & Hin); [lia|].
  rewrite Hb in Hi. inversion Hi; subst. exact Hin.
Qed.

End list_getitem.

(** [deck[i]] in terms of the list primitive. *)
Lemma at_Ok (d : FrenchDeck.t) (i : Z) (c : Card) :
  list_getitem (FrenchDeck._cards d) i = Ok c ->
  CardCollection.at_ d i = Ok (ACard c).
Proof.
  intros H. unfold CardCollection.at_, FrenchDeck.__getitem__.
  rewrite H. reflexivity.
Qed.

Lemma at_Raise (d : FrenchDeck.t) (i : Z) (e : exn) :
  list_getitem (FrenchDeck._cards d) i = Raise e ->
  CardCollection.at_ d i = Raise e.
Proof.
  intros H. unfold CardCollection.at_, FrenchDeck.__getitem__.
  rewrite H. reflexivity.
Qed.

Lemma at_nonneg (d : FrenchDeck.t) (n : nat) (c : Card) :
  FrenchDeck._cards d !! n = Some c ->
  CardCollection.at_ d (Z.of_nat n) = Ok (ACard c).
Proof. intros H. apply at_Ok. by apply list_getitem_nonneg. Qed.

(** ** [l.index(x)] *)

Lemma index_from_lookup (k : Z) (l : list string) (n : nat) (x : string) :
  NoDup l -> l !! n = Some x -> index_from k l x = Ok (k + Z.of_nat n).
Proof.
  intros Hnd. revert k n.
  induction Hnd as [|y l Hy Hnd IH]; intros k n Hn; [done|].
  destruct n as [|n]; simpl in *.
  - injection Hn as ->. rewrite decide_True by done. f_equal. lia.
  - rewrite decide_False.
    + rewrite (IH (k + 1) n Hn). f_equal. lia.
    + intros ->. apply Hy. apply list_elem_of_lookup. eauto.
Qed.

Lemma index_from_not_elem (k : Z) (l : list string) (x : string) :
  x ∉ l -> index_from k l x = Raise ValueError.
Proof.
  revert k. induction l as [|y l IH]; intros k Hx; [done|].
  simpl. apply not_elem_of_cons in Hx as [Hne Hx].
  rewrite decide_False by done. by apply IH.
Qed.

Lemma NoDup_ranks : NoDup FrenchDeck.ranks.
Proof. apply (bool_decide_unpack _). vm_compute. exact I. Qed.

Lemma NoDup_suits : NoDup FrenchDeck.suits.
Proof. apply (bool_decide_unpack _). vm_compute. exact I. Qed.

Lemma index_ranks_lookup (n : nat) (r : string) :
  FrenchDeck.ranks !! n = Some r -> index FrenchDeck.ranks r = Ok (Z.of_nat n).
Proof.
  intros Hn. unfold index.
  rewrite (index_from_lookup 0 _ n r NoDup_ranks Hn). f_equal.
Qed.

Lemma index_ranks_not_elem (r : string) :
  r ∉ FrenchDeck.ranks -> index FrenchDeck.ranks r = Raise ValueError.
Proof. apply index_from_not_elem. Qed.

(** ** [suit_values] *)

Lemma suit_values_lookup (s : string) :
  FrenchDeck.suit_values !! s = suit_weight s.
Proof.
  unfold FrenchDeck.suit_values, suit_weight.
  rewrite !lookup_insert, lookup_empty.
  repeat case_decide; congruence.
Qed.

Lemma suit_weight_Some (s : string) (w : Z) :
  suit_weight s = Some w -> s ∈ FrenchDeck.suits /\ 0 <= w < 4.
Proof.
  rewrite suits_eval. unfold suit_weight. intros Hw.
  repeat case_decide; simplify_eq; (split; [set_solver | lia]).
Qed.

Lemma suit_weight_None (s : string) :
  suit_weight s = None -> s ∉ FrenchDeck.suits.
Proof.
  rewrite suits_eval. unfold suit_weight. intros Hw.
  repeat case_decide; simplify_eq.
  rewrite !elem_of_cons, elem_of_nil. tauto.
Qed.

Lemma suit_weight_inj (s1 s2 : string) (w : Z) :
  suit_weight s1 = Some w -> suit_weight s2 = Some w -> s1 = s2.
Proof.
  unfold suit_weight. intros H1 H2.
  repeat case_decide; simplify_eq; reflexivity.
Qed.

(** ** The card sequence of a deck *)

Section product.
Context {A B C : Type} (f : A -> B -> C).

Lemma length_product (xs : list A) (ys : list B) :
  length (x ← xs; f x <$> ys) = (length xs * length ys)%nat.
Proof.
  induction xs as [|x xs IH]; [done|].
  rewrite bind_cons, length_app, length_fmap, IH. reflexivity.
Qed.

Lemma lookup_product (xs : list A) (ys : list B) (j i : nat) (x : A) (y : B) :
  xs !! j = Some x -> ys !! i = Some y ->
  (x ← xs; f x <$> ys) !! (j * length ys + i)%nat = Some (f x y).
Proof.
  intros Hj Hi. pose proof (lookup_lt_Some _ _ _ Hi) as Hlt.
  revert j Hj. induction xs as [|x0 xs IH]; intros j Hj; [done|].
  rewrite bind_cons. destruct j as [|j]; simpl in Hj.
  - injection Hj as ->.
    rewrite lookup_app_l by (rewrite length_fmap; lia).
    change (0 * length ys + i)%nat with i.
    rewrite list_lookup_fmap, Hi. reflexivity.
  - rewrite lookup_app_r by (rewrite length_fmap; lia).
    rewrite length_fmap.
    replace (S j * length ys + i - length ys)%nat
      with (j * length ys + i)%nat by lia.
    by apply IH.
Qed.

Lemma elem_of_product (xs : list A) (ys : list B) (c : C) :
  c ∈ (x ← xs; f x <$> ys) <-> exists x y, c = f x y /\ x ∈ xs /\ y ∈ ys.
Proof.
  rewrite list_elem_of_bind. split.
  - intros (x & Hc & Hx). apply list_elem_of_fmap in Hc as (y & -> & Hy).
    eauto.
  - intros (x & y & -> & Hx & Hy). exists x. split; [|done].
    apply list_elem_of_fmap. eauto.
Qed.

End product.

Lemma length_ranks : length FrenchDeck.ranks = 13%nat.
Proof. vm_compute. reflexivity. Qed.

Lemma length_suits : length FrenchDeck.suits = 4%nat.
Proof. vm_compute. reflexivity. Qed.

Lemma cards_lookup (j i : nat) (s r : string) :
  FrenchDeck.suits !! j = Some s -> FrenchDeck.ranks !! i = Some r ->
  FrenchDeck._cards deck !! (j * 13 + i)%nat = Some (mkCard r s).
Proof.
  intros Hj Hi. rewrite cards_flat, <- length_ranks.
  exact (lookup_product (fun s r => mkCard r s) _ _ j i s r Hj Hi).
Qed.

Lemma elem_of_cards (c : Card) :
  c ∈ FrenchDeck._cards deck <->
  rank c ∈ FrenchDeck.ranks /\ suit c ∈ FrenchDeck.suits.
Proof.
  rewrite cards_flat, (elem_of_product (fun s r => mkCard r s)). split.
  - intros (s & r & -> & Hs & Hr). done.
  - intros [Hr Hs]. exists (suit c), (rank c). by destruct c.
Qed.

Lemma NoDup_cards : NoDup (FrenchDeck._cards deck).
Proof. apply (bool_decide_unpack _). vm_compute. exact I. Qed.

Lemma at_in_bounds (d : FrenchDeck.t) (p : Z) :
  0 <= p < Z.of_nat (length (FrenchDeck._cards d)) ->
  exists c, FrenchDeck._cards d !! Z.to_nat p = Some c /\
            CardCollection.at_ d p = Ok (ACard c).
Proof.
  intros Hp.
  destruct (lookup_lt_is_Some_2 (FrenchDeck._cards d) (Z.to_nat p)) as [c Hc];
    [lia|].
  exists c. split; [done|].
  rewrite <- (Z2Nat.id p) by lia. by apply at_nonneg.
Qed.

(** ** Construction order and composition *)

(** C1: a fresh deck lists the suits in the outer order spades, diamonds,
    clubs, hearts and the ranks in the inner order 2..10, J, Q, K, A.
    Positions 0, 12, 13 and 51 hold the 2 and the ace of spades, the 2 of
    diamonds and the ace of hearts; the first thirteen cards are the spades in
    rising rank; and in general the card of the [j]-th suit and the [i]-th
    rank sits at position [13 * j + i]. *)
Theorem C1_construction_order :
  FrenchDeck.suits = ["spades"; "diamonds"; "clubs"; "hearts"] /\
  FrenchDeck.ranks =
    ["2"; "3"; "4"; "5"; "6"; "7"; "8"; "9"; "10"; "J"; "Q"; "K"; "A"] /\
  CardCollection.at_ deck 0 = Ok (ACard (mkCard "2" "spades")) /\
  CardCollection.at_ deck 12 = Ok (ACard (mkCard "A" "spades")) /\
  CardCollection.at_ deck 13 = Ok (ACard (mkCard "2" "diamonds")) /\
  CardCollection.at_ deck 51 = Ok (ACard (mkCard "A" "hearts")) /\
  take 13 (FrenchDeck._cards deck) =
    (fun r => mkCard r "spades") <$> FrenchDeck.ranks /\
  (forall (i : nat) (r : string),
      FrenchDeck.ranks !! i = Some r ->
      CardCollection.at_ deck (Z.of_nat i) = Ok (ACard (mkCard r "spades"))) /\
  (forall (j i : nat) (s r : string),
      FrenchDeck.suits !! j = Some s -> FrenchDeck.ranks !! i = Some r ->
      CardCollection.at_ deck (13 * Z.of_nat j + Z.of_nat i)
      = Ok (ACard (mkCard r s))).
Proof.
  assert (Hgen : forall (j i : nat) (s r : string),
             FrenchDeck.suits !! j = Some s -> FrenchDeck.ranks !! i = Some r ->
             CardCollection.at_ deck (13 * Z.of_nat j + Z.of_nat i)
             = Ok (ACard (mkCard r s))).
  { intros j i s r Hj Hi.
    replace (13 * Z.of_nat j + Z.of_nat i) with (Z.of_nat (j * 13 + i)) by lia.
    apply at_nonneg. by apply cards_lookup. }
  split_and!; try (vm_compute; reflexivity); [|exact Hgen].
  intros i r Hi. apply (Hgen 0%nat i "spades" r); [|done].
  rewrite suits_eval. reflexivity.
Qed.

Lemma C1_construction_order_witness :
  CardCollection.at_ deck (Z.of_nat 9) = Ok (ACard (mkCard "J" "spades")) /\
  CardCollection.at_ deck (13 * Z.of_nat 2 + Z.of_nat 11)
  = Ok (ACard (mkCard "K" "clubs")).
Proof.
  destruct C1_construction_order as (_ & _ & _ & _ & _ & _ & _ & Hs & Hg).
  split.
  - apply Hs. vm_compute. reflexivity.
  - apply Hg; vm_compute; reflexivity.
Defined.

(** C2: a fresh deck has size 52 and holds every (rank, suit) combination
    exactly once: its cards are pairwise distinct, a card is in it exactly
    when its rank and suit are among the fixed ones, each combination sits
    at one and only one of the positions 0..51, and two positions that hold
    equal cards are the same position. *)
Theorem C2_deck_complete :
  CardCollection.size deck = 52 /\
  NoDup (FrenchDeck._cards deck) /\
  (forall c : Card,
      c ∈ FrenchDeck._cards deck <->
      rank c ∈ FrenchDeck.ranks /\ suit c ∈ FrenchDeck.suits) /\
  (forall r s : string,
      r ∈ FrenchDeck.ranks -> s ∈ FrenchDeck.suits ->
      exists p : Z,
        0 <= p < 52 /\
        CardCollection.at_ deck p = Ok (ACard (mkCard r s)) /\
        forall q : Z,
          0 <= q < 52 ->
          CardCollection.at_ deck q = Ok (ACard (mkCard r s)) -> q = p) /\
  (forall p q : Z,
      0 <= p < 52 -> 0 <= q < 52 ->
      CardCollection.at_ deck p = CardCollection.at_ deck q -> p = q).
Proof.
  assert (Hlen : Z.of_nat (length (FrenchDeck._cards deck)) = 52)
    by (rewrite length_cards; reflexivity).
  assert (Hinj : forall p q : Z,
             0 <= p < 52 -> 0 <= q < 52 ->
             CardCollection.at_ deck p = CardCollection.at_ deck q -> p = q).
  { intros p q Hp Hq Heq.
    destruct (at_in_bounds deck p) as (c & Hc & Hpc); [lia|].
    destruct (at_in_bounds deck q) as (c' & Hc' & Hqc); [lia|].
    rewrite Hpc, Hqc in Heq. injection Heq as <-.
    pose proof (NoDup_lookup _ _ _ _ NoDup_cards Hc Hc'). lia. }
  split_and!.
  - unfold CardCollection.size, FrenchDeck.__len__. exact Hlen.
  - exact NoDup_cards.
  - exact elem_of_cards.
  - intros r s Hr Hs.
    assert (Hin : mkCard r s ∈ FrenchDeck._cards deck)
      by (by apply elem_of_cards).
    apply list_elem_of_lookup in Hin as [n Hn].
    pose proof (lookup_lt_Some _ _ _ Hn) as Hlt. rewrite length_cards in Hlt.
    exists (Z.of_nat n). split_and!; [lia | lia | by apply at_nonneg |].
    intros q Hq Hqc. apply Hinj; [lia | lia |].
    rewrite Hqc. symmetry. by apply at_nonneg.
  - exact Hinj.
Qed.

Lemma C2_deck_complete_witness :
  (exists p : Z,
      0 <= p < 52 /\
      CardCollection.at_ deck p = Ok (ACard (mkCard "Q" "hearts")) /\
      forall q : Z,
        0 <= q < 52 ->
        CardCollection.at_ deck q = Ok (ACard (mkCard "Q" "hearts")) -> q = p) /\
  (CardCollection.at_ deck 7 = CardCollection.at_ deck 7 -> 7 = 7).
Proof.
  destruct C2_deck_complete as (_ & _ & _ & Hone & Hinj).
  split.
  - apply Hone.
    + apply (bool_decide_unpack _). vm_compute. exact I.
    + apply (bool_decide_unpack _). vm_compute. exact I.
  - apply Hinj; lia.
Defined.

(** ** Positional access *)

Lemma at_out_of_range (d : FrenchDeck.t) (p : Z) :
  p < - Z.of_nat (length (FrenchDeck._cards d))
  \/ Z.of_nat (length (FrenchDeck._cards d)) <= p ->
  CardCollection.at_ d p = Raise IndexError.
Proof. intros Hp. apply at_Raise. by apply list_getitem_out_of_range. Qed.

Lemma at_in_range (d : FrenchDeck.t) (p : Z) :
  - Z.of_nat (length (FrenchDeck._cards d)) <= p
    < Z.of_nat (length (FrenchDeck._cards d)) ->
  exists c, CardCollection.at_ d p = Ok (ACard c) /\ c ∈ FrenchDeck._cards d.
Proof.
  intros Hp. destruct (list_getitem_in_range _ p Hp) as (c & Hc & Hin).
  exists c. split; [by apply at_Ok | done].
Qed.

(** C4, as the claim words it, fails at position 52: its absolute value
    does not exceed the length, and yet [deck[52]] raises [IndexError]. *)
Lemma C4_position_52_raises :
  ~ (forall p : Z,
        (Z.abs p > 52 -> CardCollection.at_ deck p = Raise IndexError) /\
        (~ Z.abs p > 52 -> exists c, CardCollection.at_ deck p = Ok (ACard c))).
Proof.
  intros H. destruct (H 52) as [_ Hret].
  destruct Hret as [c Hc]; [lia|].
  vm_compute in Hc. discriminate.
Qed.

(** C4 (amended): [at(position)] raises the out-of-range error exactly when
    [position < -52] or [position >= 52], and returns a card of the deck
    exactly when [-52 <= position <= 51]. *)
Theorem C4_at_range (p : Z) :
  (CardCollection.at_ deck p = Raise IndexError <-> p < -52 \/ 52 <= p) /\
  ((exists c, CardCollection.at_ deck p = Ok (ACard c)
              /\ c ∈ FrenchDeck._cards deck)
   <-> -52 <= p < 52).
Proof.
  assert (Hlen : Z.of_nat (length (FrenchDeck._cards deck)) = 52)
    by (rewrite length_cards; reflexivity).
  destruct (Z_lt_le_dec p (-52)) as [Hlo|Hlo];
    [|destruct (Z_lt_le_dec p 52) as [Hhi|Hhi]].
  - assert (He : CardCollection.at_ deck p = Raise IndexError)
      by (apply at_out_of_range; lia).
    split; split; try lia; [done|]. intros (c & Hc & _). congruence.
  - destruct (at_in_range deck p) as (c & Hc & Hin); [lia|].
    split; split; try lia; [congruence | by eauto].
  - assert (He : CardCollection.at_ deck p = Raise IndexError)
      by (apply at_out_of_range; lia).
    split; split; try lia; [done|]. intros (c & Hc & _). congruence.
Qed.

(** C8: negative positions count from the end.  For every [k] from 1 to 52,
    [at(-k)] returns a card, the same one as [at(52 - k)]; and [at(-1)] is
    the last card, the ace of hearts. *)
Theorem C8_negative_positions (k : Z) :
  1 <= k <= 52 ->
  (exists c, CardCollection.at_ deck (- k) = Ok (ACard c) /\
             CardCollection.at_ deck (52 - k) = Ok (ACard c)) /\
  CardCollection.at_ deck (-1) = Ok (ACard (mkCard "A" "hearts")) /\
  CardCollection.at_ deck (-1) = CardCollection.at_ deck (CardCollection.size deck - 1).
Proof.
  intros Hk.
  assert (Hlen : Z.of_nat (length (FrenchDeck._cards deck)) = 52)
    by (rewrite length_cards; reflexivity).
  split; [|split; vm_compute; reflexivity].
  destruct (at_in_range deck (52 - k)) as (c & Hc & _); [lia|].
  exists c. split; [|done].
  rewrite <- Hc. unfold CardCollection.at_, FrenchDeck.__getitem__.
  rewrite list_getitem_from_end by lia.
  rewrite Hlen. replace (- k + 52) with (52 - k) by lia. reflexivity.
Qed.

Lemma C8_negative_positions_witness :
  1 <= 3 <= 52 /\
  exists c, CardCollection.at_ deck (- 3) = Ok (ACard c) /\
            CardCollection.at_ deck (52 - 3) = Ok (ACard c).
Proof.
  split; [lia|]. apply (C8_negative_positions 3). lia.
Defined.

(** ** The ranking function *)

Lemma spades_high_Ok (d : FrenchDeck.t) (c : Card) (i : nat) (w : Z) :
  FrenchDeck.ranks !! i = Some (rank c) ->
  suit_weight (suit c) = Some w ->
  FrenchDeck.spades_high d c = Ok (Z.of_nat i * 4 + w).
Proof.
  intros Hi Hw. unfold FrenchDeck.spades_high.
  rewrite (index_ranks_lookup i _ Hi). unfold mbind at 1, result_bind.
  unfold dict_get. rewrite suit_values_lookup, Hw.
  unfold mbind, result_bind. rewrite size_suit_values. reflexivity.
Qed.

Lemma spades_high_bad_rank (d : FrenchDeck.t) (c : Card) :
  rank c ∉ FrenchDeck.ranks ->
  FrenchDeck.spades_high d c = Raise ValueError.
Proof.
  intros Hr. unfold FrenchDeck.spades_high.
  rewrite (index_ranks_not_elem _ Hr). reflexivity.
Qed.

Lemma spades_high_bad_suit (d : FrenchDeck.t) (c : Card) :
  rank c ∈ FrenchDeck.ranks -> suit c ∉ FrenchDeck.suits ->
  FrenchDeck.spades_high d c = Raise KeyError.
Proof.
  intros Hr Hs. apply list_elem_of_lookup in Hr as [i Hi].
  unfold FrenchDeck.spades_high.
  rewrite (index_ranks_lookup i _ Hi). unfold mbind at 1, result_bind.
  unfold dict_get. rewrite suit_values_lookup.
  destruct (suit_weight (suit c)) as [w|] eqn:Hw; [|reflexivity].
  apply suit_weight_Some in Hw as [Hin _]. contradiction.
Qed.

Lemma suit_weight_elem (s : string) :
  s ∈ FrenchDeck.suits -> exists w, suit_weight s = Some w /\ 0 <= w < 4.
Proof.
  intros Hs. destruct (suit_weight s) as [w|] eqn:Hw.
  - exists w. split; [done|]. by apply suit_weight_Some in Hw as [_ ?].
  - by apply suit_weight_None in Hw.
Qed.

Lemma spades_high_decompose (d : FrenchDeck.t) (c : Card) :
  rank c ∈ FrenchDeck.ranks -> suit c ∈ FrenchDeck.suits ->
  exists (i : nat) (w : Z),
    FrenchDeck.ranks !! i = Some (rank c) /\ (i < 13)%nat /\
    suit_weight (suit c) = Some w /\ 0 <= w < 4 /\
    FrenchDeck.spades_high d c = Ok (Z.of_nat i * 4 + w).
Proof.
  intros Hr Hs. apply list_elem_of_lookup in Hr as [i Hi].
  destruct (suit_weight_elem _ Hs) as (w & Hw & Hrange).
  exists i, w. split_and!; [done | | done | lia | lia | by apply spades_high_Ok].
  rewrite <- length_ranks. by eapply lookup_lt_Some.
Qed.

(** C3: for a card whose rank is the [i]-th of the thirteen ranks and whose
    suit has weight [w] (spades 3, hearts 2, diamonds 1, clubs 0),
    [rankValue] returns [i * 4 + w].  The 2 of clubs gets 0, the 2 of spades
    3, the ace of clubs 48 and the ace of spades 51; the ace of spades is in
    the deck and no card of the deck gets more than 51.  Every card with a
    recognised rank and suit has such an [i], which is what [ranks.index]
    returns, and such a [w]; the factor 4 is the size of [suit_values]. *)
Theorem C3_rank_value_formula (d : FrenchDeck.t) :
  (forall (c : Card) (i : nat) (w : Z),
      FrenchDeck.ranks !! i = Some (rank c) ->
      suit_weight (suit c) = Some w ->
      CardCollection.rankValue d c = Ok (Z.of_nat i * 4 + w)) /\
  CardCollection.rankValue d (mkCard "2" "clubs") = Ok 0 /\
  CardCollection.rankValue d (mkCard "2" "spades") = Ok 3 /\
  CardCollection.rankValue d (mkCard "A" "clubs") = Ok 48 /\
  CardCollection.rankValue d (mkCard "A" "spades") = Ok 51 /\
  mkCard "A" "spades" ∈ FrenchDeck._cards deck /\
  (forall c : Card,
      c ∈ FrenchDeck._cards deck ->
      exists v, CardCollection.rankValue d c = Ok v /\ 0 <= v <= 51) /\
  (forall c : Card,
      rank c ∈ FrenchDeck.ranks -> suit c ∈ FrenchDeck.suits ->
      exists (i : nat) (w : Z),
        index FrenchDeck.ranks (rank c) = Ok (Z.of_nat i) /\
        suit_weight (suit c) = Some w /\
        CardCollection.rankValue d c = Ok (Z.of_nat i * 4 + w)) /\
  Z.of_nat (size FrenchDeck.suit_values) = 4.
Proof.
  split_and!; try (vm_compute; reflexivity).
  - intros c i w. apply spades_high_Ok.
  - apply (bool_decide_unpack _). vm_compute. exact I.
  - intros c [Hr Hs]%elem_of_cards.
    destruct (spades_high_decompose d c Hr Hs) as (i & w & _ & Hi & _ & Hw & Hv).
    exists (Z.of_nat i * 4 + w). split; [exact Hv | lia].
  - intros c Hr Hs.
    destruct (spades_high_decompose d c Hr Hs) as (i & w & Hi & _ & Hw & _ & Hv).
    exists i, w. split_and!; [by apply index_ranks_lookup | exact Hw | exact Hv].
Qed.

Lemma C3_rank_value_formula_witness :
  CardCollection.rankValue deck (mkCard "10" "hearts") = Ok (Z.of_nat 8 * 4 + 2) /\
  exists v, CardCollection.rankValue deck (mkCard "K" "diamonds") = Ok v
            /\ 0 <= v <= 51.
Proof.
  destruct (C3_rank_value_formula deck)
    as (Hf & _ & _ & _ & _ & _ & Hmax & _).
  split.
  - apply (Hf (mkCard "10" "hearts") 8%nat 2); vm_compute; reflexivity.
  - apply Hmax. apply (bool_decide_unpack _). vm_compute. exact I.
Defined.

(** C5: [rankValue] raises exactly when the card's rank is not one of the
    thirteen ranks or its suit is not one of the four suits ([ValueError]
    for the rank, else [KeyError] for the suit), and returns an integer
    exactly when both are recognised. *)
Theorem C5_rank_value_errors (d : FrenchDeck.t) (c : Card) :
  ((exists e, CardCollection.rankValue d c = Raise e) <->
   (rank c ∉ FrenchDeck.ranks \/ suit c ∉ FrenchDeck.suits)) /\
  ((exists v, CardCollection.rankValue d c = Ok v) <->
   (rank c ∈ FrenchDeck.ranks /\ suit c ∈ FrenchDeck.suits)) /\
  (rank c ∉ FrenchDeck.ranks ->
   CardCollection.rankValue d c = Raise ValueError) /\
  (rank c ∈ FrenchDeck.ranks -> suit c ∉ FrenchDeck.suits ->
   CardCollection.rankValue d c = Raise KeyError).
Proof.
  unfold CardCollection.rankValue.
  destruct (decide (rank c ∈ FrenchDeck.ranks)) as [Hr|Hr];
    [destruct (decide (suit c ∈ FrenchDeck.suits)) as [Hs|Hs]|].
  - destruct (spades_high_decompose d c Hr Hs) as (i & w & _ & _ & _ & _ & Hv).
    rewrite Hv. split_and!.
    + split; [intros [e He]; discriminate | tauto].
    + split; [done | eauto].
    + done.
    + done.
  - rewrite (spades_high_bad_suit d c Hr Hs). split_and!.
    + split; [tauto | eauto].
    + split; [intros [v Hv]; discriminate | tauto].
    + done.
    + done.
  - rewrite (spades_high_bad_rank d c Hr). split_and!.
    + split; [tauto | eauto].
    + split; [intros [v Hv]; discriminate | tauto].
    + done.
    + done.
Qed.

Lemma C5_rank_value_errors_witness :
  CardCollection.rankValue deck (mkCard "15" "rockets") = Raise ValueError /\
  CardCollection.rankValue deck (mkCard "Q" "rockets") = Raise KeyError.
Proof.
  split.
  - apply (C5_rank_value_errors deck (mkCard "15" "rockets")).
    apply (bool_decide_unpack _). vm_compute. exact I.
  - apply (C5_rank_value_errors deck (mkCard "Q" "rockets"));
      apply (bool_decide_unpack _); vm_compute; exact I.
Defined.

Lemma suit_order_weight (j : nat) (s : string) :
  suit_order !! j = Some s -> suit_weight s = Some (Z.of_nat j).
Proof.
  unfold suit_order. intros Hj.
  do 4 (destruct j as [|j]; [injection Hj as <-; reflexivity|]).
  discriminate.
Qed.

(** C7: on the cards of the deck [rankValue] is a strict total order with
    the rank as major key and the suit as minor key.  Equal values mean
    equal cards; two different cards get comparable, different values; a
    card whose rank comes later in the rank list gets the larger value
    whatever the two suits are; and within one rank the values order the
    suits clubs < diamonds < hearts < spades. *)
Theorem C7_rank_value_order (d : FrenchDeck.t) :
  (forall (c1 c2 : Card) (v : Z),
      c1 ∈ FrenchDeck._cards deck -> c2 ∈ FrenchDeck._cards deck ->
      CardCollection.rankValue d c1 = Ok v ->
      CardCollection.rankValue d c2 = Ok v -> c1 = c2) /\
  (forall c1 c2 : Card,
      c1 ∈ FrenchDeck._cards deck -> c2 ∈ FrenchDeck._cards deck ->
      c1 <> c2 ->
      exists v1 v2,
        CardCollection.rankValue d c1 = Ok v1 /\
        CardCollection.rankValue d c2 = Ok v2 /\ (v1 < v2 \/ v2 < v1)) /\
  (forall (c1 c2 : Card) (i1 i2 : nat),
      c1 ∈ FrenchDeck._cards deck -> c2 ∈ FrenchDeck._cards deck ->
      FrenchDeck.ranks !! i1 = Some (rank c1) ->
      FrenchDeck.ranks !! i2 = Some (rank c2) ->
      (i1 < i2)%nat ->
      exists v1 v2,
        CardCollection.rankValue d c1 = Ok v1 /\
        CardCollection.rankValue d c2 = Ok v2 /\ v1 < v2) /\
  (forall (r s1 s2 : string) (j1 j2 : nat),
      r ∈ FrenchDeck.ranks ->
      suit_order !! j1 = Some s1 -> suit_order !! j2 = Some s2 ->
      (j1 < j2)%nat ->
      exists v1 v2,
        CardCollection.rankValue d (mkCard r s1) = Ok v1 /\
        CardCollection.rankValue d (mkCard r s2) = Ok v2 /\ v1 < v2).
Proof.
  unfold CardCollection.rankValue.
  assert (Hinj : forall (c1 c2 : Card) (v : Z),
             c1 ∈ FrenchDeck._cards deck -> c2 ∈ FrenchDeck._cards deck ->
             FrenchDeck.spades_high d c1 = Ok v ->
             FrenchDeck.spades_high d c2 = Ok v -> c1 = c2).
  { intros c1 c2 v [Hr1 Hs1]%elem_of_cards [Hr2 Hs2]%elem_of_cards Hv1 Hv2.
    destruct (spades_high_decompose d c1 Hr1 Hs1)
      as (i1 & w1 & Hi1 & _ & Hw1 & Hb1 & He1).
    destruct (spades_high_decompose d c2 Hr2 Hs2)
      as (i2 & w2 & Hi2 & _ & Hw2 & Hb2 & He2).
    rewrite He1 in Hv1. rewrite He2 in Hv2.
    injection Hv1 as Hv1. injection Hv2 as Hv2.
    assert (i1 = i2) as -> by lia. assert (w1 = w2) as -> by lia.
    destruct c1 as [r1 s1], c2 as [r2 s2]; simpl in *. f_equal.
    - congruence.
    - by eapply suit_weight_inj. }
  split_and!.
  - exact Hinj.
  - intros c1 c2 Hc1 Hc2 Hne.
    pose proof Hc1 as [Hr1 Hs1]%elem_of_cards.
    pose proof Hc2 as [Hr2 Hs2]%elem_of_cards.
    destruct (spades_high_decompose d c1 Hr1 Hs1)
      as (i1 & w1 & _ & _ & _ & _ & He1).
    destruct (spades_high_decompose d c2 Hr2 Hs2)
      as (i2 & w2 & _ & _ & _ & _ & He2).
    eexists _, _. split_and!; [exact He1 | exact He2 |].
    destruct (Z.lt_total (Z.of_nat i1 * 4 + w1) (Z.of_nat i2 * 4 + w2))
      as [?|[Heq|?]]; [by left | | by right].
    exfalso. apply Hne. apply (Hinj c1 c2 (Z.of_nat i1 * 4 + w1)); try done.
    by rewrite Heq.
  - intros c1 c2 i1 i2 [_ Hs1]%elem_of_cards [_ Hs2]%elem_of_cards Hi1 Hi2 Hlt.
    destruct (suit_weight_elem _ Hs1) as (w1 & Hw1 & Hb1).
    destruct (suit_weight_elem _ Hs2) as (w2 & Hw2 & Hb2).
    eexists _, _. split_and!;
      [by apply (spades_high_Ok d c1 i1 w1)
      | by apply (spades_high_Ok d c2 i2 w2) | lia].
  - intros r s1 s2 j1 j2 [i Hi]%list_elem_of_lookup Hj1 Hj2 Hlt.
    apply suit_order_weight in Hj1, Hj2.
    eexists _, _. split_and!;
      [by apply (spades_high_Ok d (mkCard r s1) i (Z.of_nat j1))
      | by apply (spades_high_Ok d (mkCard r s2) i (Z.of_nat j2)) | lia].
Qed.

Lemma C7_rank_value_order_witness :
  (exists v1 v2,
      CardCollection.rankValue deck (mkCard "9" "spades") = Ok v1 /\
      CardCollection.rankValue deck (mkCard "10" "clubs") = Ok v2 /\ v1 < v2) /\
  (exists v1 v2,
      CardCollection.rankValue deck (mkCard "K" "diamonds") = Ok v1 /\
      CardCollection.rankValue deck (mkCard "K" "hearts") = Ok v2 /\ v1 < v2) /\
  (CardCollection.rankValue deck (mkCard "3" "hearts") = Ok 6 ->
   CardCollection.rankValue deck (mkCard "3" "hearts") = Ok 6 ->
   mkCard "3" "hearts" = mkCard "3" "hearts").
Proof.
  destruct (C7_rank_value_order deck) as (Hinj & _ & Hrank & Hsuit).
  split_and!.
  - apply (Hrank (mkCard "9" "spades") (mkCard "10" "clubs") 7%nat 8%nat);
      try (apply (bool_decide_unpack _); vm_compute; exact I);
      try (vm_compute; reflexivity).
  - apply (Hsuit "K" "diamonds" "hearts" 1%nat 2%nat);
      try (apply (bool_decide_unpack _); vm_compute; exact I);
      try (vm_compute; reflexivity).
  - apply Hinj; apply (bool_decide_unpack _); vm_compute; exact I.
Defined.

(** ** Slices *)

Lemma adjust_index_bounds (n i : Z) :
  0 <= n -> 0 <= adjust_index n i <= n.
Proof. intros Hn. unfold adjust_index. ztests. Qed.

Lemma adjust_index_clamp (n i : Z) :
  0 <= n -> adjust_index n i = clamp_bound n i.
Proof.
  intros Hn. unfold adjust_index, clamp_bound. cbv zeta.
  destruct (Z.ltb_spec (Z.max (- n) (Z.min n i)) 0); ztests.
Qed.

Section list_getslice.
Context {A : Type}.
Implicit Types (l : list A) (a b : Z) (k : nat).

Lemma length_list_getslice l a b :
  length (list_getslice l (Some a) (Some b))
  = Z.to_nat (adjust_index (Z.of_nat (length l)) b
              - adjust_index (Z.of_nat (length l)) a).
Proof.
  unfold list_getslice, slice_start, slice_stop. cbv zeta.
  pose proof (adjust_index_bounds (Z.of_nat (length l)) a ltac:(lia)).
  pose proof (adjust_index_bounds (Z.of_nat (length l)) b ltac:(lia)).
  rewrite length_take, length_drop. lia.
Qed.

Lemma lookup_list_getslice l a b k :
  (k < length (list_getslice l (Some a) (Some b)))%nat ->
  list_getslice l (Some a) (Some b) !! k
  = l !! (Z.to_nat (adjust_index (Z.of_nat (length l)) a) + k)%nat.
Proof.
  rewrite length_list_getslice. intros Hk.
  unfold list_getslice, slice_start, slice_stop. cbv zeta.
  rewrite lookup_take_lt by lia. apply lookup_drop.
Qed.

End list_getslice.

(** C6: for all integers [start] and [stop], [slice(start, stop)] raises
    nothing and returns the cards at the positions from [start] (inclusive)
    to [stop] (exclusive), in order, where a bound that overruns is clamped
    to the valid range and a negative bound counts from the end as a
    position does: the result has [hi - lo] elements (none when [hi <= lo])
    and its [k]-th element is [at(lo + k)].  A non-negative bound is just
    capped at 52.  In particular [slice(5, 8)] is [[at(5), at(6), at(7)]]. *)
Theorem C6_slice_range (start stop : Z) :
  (exists l : list Card,
      CardCollection.slice deck start stop = Ok (Cards l) /\
      length l = Z.to_nat (clamp_bound 52 stop - clamp_bound 52 start) /\
      forall k : nat,
        (k < length l)%nat ->
        exists c, l !! k = Some c /\
                  CardCollection.at_ deck (clamp_bound 52 start + Z.of_nat k)
                  = Ok (ACard c)) /\
  0 <= clamp_bound 52 start <= 52 /\
  0 <= clamp_bound 52 stop <= 52 /\
  (0 <= start -> clamp_bound 52 start = Z.min start 52) /\
  (0 <= stop -> clamp_bound 52 stop = Z.min stop 52) /\
  (exists c5 c6 c7 : Card,
      CardCollection.at_ deck 5 = Ok (ACard c5) /\
      CardCollection.at_ deck 6 = Ok (ACard c6) /\
      CardCollection.at_ deck 7 = Ok (ACard c7) /\
      CardCollection.slice deck 5 8 = Ok (Cards [c5; c6; c7])).
Proof.
  assert (Hlen : Z.of_nat (length (FrenchDeck._cards deck)) = 52)
    by (rewrite length_cards; reflexivity).
  pose proof (adjust_index_bounds 52 start ltac:(lia)) as Hlo.
  pose proof (adjust_index_bounds 52 stop ltac:(lia)) as Hhi.
  rewrite <- !(adjust_index_clamp 52) by lia.
  split_and!; try lia.
  - exists (list_getslice (FrenchDeck._cards deck) (Some start) (Some stop)).
    split_and!.
    + reflexivity.
    + rewrite length_list_getslice, Hlen. reflexivity.
    + intros k Hk. pose proof Hk as Hk'.
      rewrite length_list_getslice, Hlen in Hk'.
      rewrite (lookup_list_getslice _ _ _ _ Hk), Hlen.
      destruct (lookup_lt_is_Some_2 (FrenchDeck._cards deck)
                  (Z.to_nat (adjust_index 52 start) + k)) as [c Hc];
        [rewrite length_cards; lia|].
      exists c. split; [exact Hc|].
      replace (adjust_index 52 start + Z.of_nat k)
        with (Z.of_nat (Z.to_nat (adjust_index 52 start) + k)) by lia.
      by apply at_nonneg.
  - intros Hs. unfold adjust_index. ztests.
  - intros Hs. unfold adjust_index. ztests.
  - eexists _, _, _. split_and!; vm_compute; reflexivity.
Qed.

Lemma C6_slice_range_witness :
  (exists l : list Card,
      CardCollection.slice deck (-3) 100 = Ok (Cards l) /\
      length l = Z.to_nat (clamp_bound 52 100 - clamp_bound 52 (-3)) /\
      forall k : nat,
        (k < length l)%nat ->
        exists c, l !! k = Some c /\
                  CardCollection.at_ deck (clamp_bound 52 (-3) + Z.of_nat k)
                  = Ok (ACard c)) /\
  clamp_bound 52 100 = Z.min 100 52.
Proof.
  destruct (C6_slice_range (-3) 100) as (Hl & _ & _ & _ & Hstop & _).
  split; [exact Hl | apply Hstop; lia].
Defined.

(** ** Traversals *)

Section traversal.
Variable d : FrenchDeck.t.

Lemma getitem_Int_nonneg (n : nat) (c : Card) :
  FrenchDeck._cards d !! n = Some c ->
  FrenchDeck.__getitem__ d (Int (Z.of_nat n)) = Ok (ACard c).
Proof. apply at_nonneg. Qed.

Lemma getitem_Int_end :
  FrenchDeck.__getitem__ d (Int (Z.of_nat (length (FrenchDeck._cards d))))
  = Raise IndexError.
Proof. apply at_out_of_range. lia. Qed.

(** With more fuel than positions left, the forward traversal stops at
    the first [IndexError] and has produced the rest of the list. *)
Lemma iter_from_drop (fuel n : nat) :
  (n <= length (FrenchDeck._cards d))%nat ->
  (length (FrenchDeck._cards d) - n < fuel)%nat ->
  iter_from fuel d (Z.of_nat n)
  = Some (Ok (ACard <$> drop n (FrenchDeck._cards d))).
Proof.
  revert n. induction fuel as [|fuel IH]; intros n Hn Hfuel; [lia|].
  destruct (decide (n = length (FrenchDeck._cards d))) as [->|Hne].
  - cbn [iter_from]. rewrite getitem_Int_end, drop_all. reflexivity.
  - destruct (lookup_lt_is_Some_2 (FrenchDeck._cards d) n) as [c Hc]; [lia|].
    cbn [iter_from]. rewrite (getitem_Int_nonneg n c Hc).
    replace (Z.of_nat n + 1) with (Z.of_nat (S n)) by lia.
    rewrite IH by lia.
    rewrite (drop_S _ c n Hc). reflexivity.
Qed.

Lemma reversed_from_take (k : nat) :
  (k <= length (FrenchDeck._cards d))%nat ->
  reversed_from d k = Ok (ACard <$> reverse (take k (FrenchDeck._cards d))).
Proof.
  induction k as [|k IH]; intros Hk; [reflexivity|].
  destruct (lookup_lt_is_Some_2 (FrenchDeck._cards d) k) as [c Hc]; [lia|].
  cbn [reversed_from]. rewrite (getitem_Int_nonneg k c Hc), IH by lia.
  rewrite (take_S_r _ _ _ Hc), reverse_snoc. reflexivity.
Qed.

Lemma iter_all (fuel : nat) :
  (length (FrenchDeck._cards d) < fuel)%nat ->
  iter fuel d = Some (Ok (ACard <$> FrenchDeck._cards d)).
Proof.
  intros Hfuel. unfold iter. change 0 with (Z.of_nat 0).
  rewrite (iter_from_drop fuel 0) by lia. reflexivity.
Qed.

Lemma reversed_all :
  reversed d = Ok (ACard <$> reverse (FrenchDeck._cards d)).
Proof.
  unfold reversed, FrenchDeck.__len__. rewrite Nat2Z.id.
  rewrite reversed_from_take by lia. rewrite take_ge by lia. reflexivity.
Qed.

End traversal.

(** C9: the forward traversal of the deck ends (any fuel above 52 is
    enough) with the 52 cards in order, the backward traversal returns the
    reversed sequence, and its [i]-th element is the [(51 - i)]-th element of
    the forward one for every [i] below 52. *)
Theorem C9_reverse_iteration (fuel : nat) :
  (52 < fuel)%nat ->
  exists fwd bwd : list item,
    iter fuel deck = Some (Ok fwd) /\
    reversed deck = Ok bwd /\
    length fwd = 52%nat /\
    length bwd = 52%nat /\
    bwd = reverse fwd /\
    forall i : nat,
      (i < 52)%nat ->
      exists x, bwd !! i = Some x /\ fwd !! (51 - i)%nat = Some x.
Proof.
  intros Hfuel.
  exists (ACard <$> FrenchDeck._cards deck),
         (ACard <$> reverse (FrenchDeck._cards deck)).
  assert (Hlen : length (ACard <$> FrenchDeck._cards deck) = 52%nat)
    by (rewrite length_fmap; apply length_cards).
  split_and!.
  - apply iter_all. rewrite length_cards. exact Hfuel.
  - apply reversed_all.
  - exact Hlen.
  - rewrite fmap_reverse, length_reverse. exact Hlen.
  - apply fmap_reverse.
  - intros i Hi. rewrite fmap_reverse, reverse_lookup by lia.
    rewrite Hlen.
    destruct (lookup_lt_is_Some_2 (ACard <$> FrenchDeck._cards deck)
                (51 - i)) as [x Hx]; [lia|].
    exists x. split; [|exact Hx].
    rewrite <- Hx. reflexivity.
Qed.

Lemma C9_reverse_iteration_witness :
  (52 < 53)%nat /\
  exists fwd bwd : list item,
    iter 53 deck = Some (Ok fwd) /\
    reversed deck = Ok bwd /\
    length fwd = 52%nat /\
    length bwd = 52%nat /\
    bwd = reverse fwd /\
    forall i : nat,
      (i < 52)%nat ->
      exists x, bwd !! i = Some x /\ fwd !! (51 - i)%nat = Some x.
Proof.
  split; [lia|]. apply (C9_reverse_iteration 53). lia.
Defined.

(** ** Several instances *)

Section program.
Import Program.

(** With the class object as the class body leaves it, the constructor and
    the ranking function are the ones studied above. *)
Lemma init_class_body : Program.__init__ class_body = FrenchDeck.__init__.
Proof. reflexivity. Qed.

Lemma spades_high_class_body (d : FrenchDeck.t) (c : Card) :
  Program.spades_high class_body d c = FrenchDeck.spades_high d c.
Proof. reflexivity. Qed.


Lemma exec_app (st : state) (p1 p2 : list stmt) :
  exec st (p1 ++ p2) = exec (exec st p1) p2.
Proof.
  revert st. induction p1 as [|c p1 IH]; intros st; [reflexivity|].
  cbn [app exec]. apply IH.
Qed.









End program.




(** * The demonstration script of card_deck.py *)

(** [deck[i]] and [deck[a:b]] through [__getitem__]. *)
Lemma getitem_Int (d : FrenchDeck.t) (i : Z) :
  FrenchDeck.__getitem__ d (Int i)
  = match getcard d i with
    | inl e => Raise e
    | inr c => Ok (ACard c)
    end.
Proof. reflexivity. Qed.

Lemma getitem_Slice (d : FrenchDeck.t) (start stop : option Z) :
  FrenchDeck.__getitem__ d (Slice start stop) = Ok (Cards (getslice d start stop)).
Proof. reflexivity. Qed.

Section script_traversal.
Variable d : FrenchDeck.t.

Lemma getcard_nonneg (n : nat) (c : Card) :
  FrenchDeck._cards d !! n = Some c -> getcard d (Z.of_nat n) = Ok c.
Proof. apply list_getitem_nonneg. Qed.

Lemma getcard_end :
  getcard d (Z.of_nat (length (FrenchDeck._cards d))) = Raise IndexError.
Proof. apply list_getitem_out_of_range. lia. Qed.

Lemma cards_from_drop (fuel n : nat) :
  (n <= length (FrenchDeck._cards d))%nat ->
  (length (FrenchDeck._cards d) - n < fuel)%nat ->
  cards_from fuel d (Z.of_nat n) = Some (Ok (drop n (FrenchDeck._cards d))).
Proof.
  revert n. induction fuel as [|fuel IH]; intros n Hn Hfuel; [lia|].
  cbn [cards_from].
  destruct (decide (n = length (FrenchDeck._cards d))) as [->|Hne].
  - rewrite getcard_end, drop_all. reflexivity.
  - destruct (lookup_lt_is_Some_2 (FrenchDeck._cards d) n) as [c Hc]; [lia|].
    rewrite (getcard_nonneg n c Hc).
    replace (Z.of_nat n + 1) with (Z.of_nat (S n)) by lia.
    rewrite IH by lia. rewrite (drop_S _ c n Hc). reflexivity.
Qed.

(** Too little fuel: the traversal has not met [IndexError] yet. *)
Lemma cards_from_short (fuel n : nat) :
  (n + fuel <= length (FrenchDeck._cards d))%nat ->
  cards_from fuel d (Z.of_nat n) = None.
Proof.
  revert n. induction fuel as [|fuel IH]; intros n Hn; [reflexivity|].
  cbn [cards_from].
  destruct (lookup_lt_is_Some_2 (FrenchDeck._cards d) n) as [c Hc]; [lia|].
  rewrite (getcard_nonneg n c Hc).
  replace (Z.of_nat n + 1) with (Z.of_nat (S n)) by lia.
  rewrite IH by lia. reflexivity.
Qed.

Lemma list_of_deck_all (fuel : nat) :
  (length (FrenchDeck._cards d) < fuel)%nat ->
  list_of_deck fuel d = Some (Ok (FrenchDeck._cards d)).
Proof.
  intros Hfuel. unfold list_of_deck. change 0 with (Z.of_nat 0).
  rewrite (cards_from_drop fuel 0) by lia. reflexivity.
Qed.

Lemma contains_from_drop (fuel n : nat) (c : Card) :
  (n <= length (FrenchDeck._cards d))%nat ->
  (length (FrenchDeck._cards d) - n < fuel)%nat ->
  contains_from fuel d c (Z.of_nat n)
  = Some (Ok (bool_decide (c ∈ drop n (FrenchDeck._cards d)))).
Proof.
  revert n. induction fuel as [|fuel IH]; intros n Hn Hfuel; [lia|].
  cbn [contains_from].
  destruct (decide (n = length (FrenchDeck._cards d))) as [->|Hne].
  - rewrite getcard_end, drop_all.
    rewrite bool_decide_eq_false_2 by apply not_elem_of_nil. reflexivity.
  - destruct (lookup_lt_is_Some_2 (FrenchDeck._cards d) n) as [x Hx]; [lia|].
    rewrite (getcard_nonneg n x Hx), (drop_S _ x n Hx).
    destruct (decide (x = c)) as [->|Hxc].
    + rewrite bool_decide_eq_true_2 by apply list_elem_of_here. reflexivity.
    + replace (Z.of_nat n + 1) with (Z.of_nat (S n)) by lia.
      rewrite IH by lia. do 2 f_equal. apply bool_decide_ext.
      rewrite elem_of_cons. split; [tauto|]. intros [?|?]; [congruence|done].
Qed.

Lemma contains_member (fuel : nat) (c : Card) :
  (length (FrenchDeck._cards d) < fuel)%nat ->
  contains fuel d c = Some (Ok (bool_decide (c ∈ FrenchDeck._cards d))).
Proof.
  intros Hfuel. unfold contains. change 0 with (Z.of_nat 0).
  rewrite (contains_from_drop fuel 0) by lia. reflexivity.
Qed.

End script_traversal.

(** X1: [card in deck] ends (any fuel above 52 suffices), never raises, and
    answers [True] exactly for the cards whose rank and suit are among the
    fixed ones; so it is [False] for a card such as Card('15', 'rockets'). *)
Theorem contains_iff_recognised (fuel : nat) (c : Card) :
  (52 < fuel)%nat ->
  exists b : bool,
    contains fuel deck c = Some (Ok b) /\
    (b = true <-> rank c ∈ FrenchDeck.ranks /\ suit c ∈ FrenchDeck.suits).
Proof.
  intros Hfuel. exists (bool_decide (c ∈ FrenchDeck._cards deck)). split.
  - apply contains_member. rewrite length_cards. exact Hfuel.
  - rewrite bool_decide_eq_true. apply elem_of_cards.
Qed.

Lemma contains_iff_recognised_witness :
  (52 < 53)%nat /\
  exists b : bool,
    contains 53 deck (mkCard "15" "rockets") = Some (Ok b) /\
    (b = true <->
     rank (mkCard "15" "rockets") ∈ FrenchDeck.ranks /\
     suit (mkCard "15" "rockets") ∈ FrenchDeck.suits).
Proof.
  split; [lia|]. apply (contains_iff_recognised 53). lia.
Defined.

(** X2: the membership search costs one [__getitem__] call per card plus the
    failing one: with 52 calls or fewer the search for a card that is not in
    the deck has not finished, with 53 it has. *)
Theorem contains_needs_all_positions (fuel : nat) (c : Card) :
  c ∉ FrenchDeck._cards deck ->
  (contains fuel deck c = None <-> (fuel <= 52)%nat) /\
  (contains fuel deck c = Some (Ok false) <-> (52 < fuel)%nat).
Proof.
  intros Hc.
  assert (Hshort : forall f n : nat,
             (n + f <= 52)%nat -> contains_from f deck c (Z.of_nat n) = None).
  { induction f as [|f IH]; intros n Hn; [reflexivity|].
    cbn [contains_from].
    destruct (lookup_lt_is_Some_2 (FrenchDeck._cards deck) n) as [x Hx];
      [rewrite length_cards; lia|].
    rewrite (getcard_nonneg deck n x Hx).
    rewrite decide_False.
    - replace (Z.of_nat n + 1) with (Z.of_nat (S n)) by lia. apply IH. lia.
    - intros ->. apply Hc. apply list_elem_of_lookup. eauto. }
  destruct (le_lt_dec fuel 52) as [Hle|Hlt].
  - assert (Hnone : contains fuel deck c = None)
      by (apply (Hshort fuel 0%nat); lia).
    rewrite Hnone. split; split; try done; lia.
  - assert (Hsome : contains fuel deck c = Some (Ok false)).
    { rewrite contains_member by (rewrite length_cards; lia).
      by rewrite bool_decide_eq_false_2. }
    rewrite Hsome. split; split; try done; lia.
Qed.

Lemma contains_needs_all_positions_witness :
  (mkCard "15" "rockets" ∉ FrenchDeck._cards deck) /\
  (contains 52 deck (mkCard "15" "rockets") = None <-> (52 <= 52)%nat).
Proof.
  assert (H : mkCard "15" "rockets" ∉ FrenchDeck._cards deck).
  { apply (bool_decide_unpack _). vm_compute. exact I. }
  split; [exact H|].
  apply (contains_needs_all_positions 52 (mkCard "15" "rockets") H).
Defined.

(** ** Filtered lists and sets *)

Lemma filter_none {A : Type} (P : A -> Prop) `{!forall x, Decision (P x)}
    (l : list A) :
  (forall x, x ∈ l -> ~ P x) -> filter P l = [].
Proof.
  induction l as [|x l IH]; intros Hl; [reflexivity|].
  rewrite filter_cons_False by (apply Hl; left).
  apply IH. intros y Hy. apply Hl. by right.
Qed.

Lemma elem_of_ranks_cases (r : string) :
  r ∈ FrenchDeck.ranks ->
  r ∈ ["2"; "3"; "4"; "5"; "6"; "7"; "8"; "9"; "10"; "J"; "Q"; "K"; "A"].
Proof. by rewrite ranks_eval. Qed.

Lemma elem_of_suits_cases (s : string) :
  s ∈ FrenchDeck.suits -> s ∈ ["spades"; "diamonds"; "clubs"; "hearts"].
Proof. by rewrite suits_eval. Qed.

(** X3: the comprehension that selects the cards of one rank returns, for a
    recognised rank, exactly four cards, one per suit in the order spades,
    diamonds, clubs, hearts; for any other rank it returns the empty list. *)
Theorem cards_of_rank_by_suit (fuel : nat) (target_rank : string) :
  (52 < fuel)%nat ->
  (target_rank ∈ FrenchDeck.ranks ->
   cards_of_rank fuel deck target_rank
   = Some (Ok ((fun s => mkCard target_rank s) <$> FrenchDeck.suits))) /\
  (target_rank ∉ FrenchDeck.ranks ->
   cards_of_rank fuel deck target_rank = Some (Ok [])).
Proof.
  intros Hfuel. unfold cards_of_rank.
  rewrite list_of_deck_all by (rewrite length_cards; exact Hfuel).
  cbn [with_cards]. split.
  - intros Hr%elem_of_ranks_cases.
    repeat (apply elem_of_cons in Hr as [->|Hr];
            [vm_compute; reflexivity|]).
    by apply elem_of_nil in Hr.
  - intros Hr. do 2 f_equal. apply filter_none.
    intros c [Hc _]%elem_of_cards Heq. apply Hr. by rewrite <- Heq.
Qed.

Lemma cards_of_rank_by_suit_witness :
  (52 < 60)%nat /\
  cards_of_rank 60 deck "A"
  = Some (Ok ((fun s => mkCard "A" s) <$> FrenchDeck.suits)) /\
  cards_of_rank 60 deck "1" = Some (Ok []).
Proof.
  split; [lia|]. split.
  - apply (cards_of_rank_by_suit 60 "A"); [lia|].
    apply (bool_decide_unpack _). vm_compute. exact I.
  - apply (cards_of_rank_by_suit 60 "1"); [lia|].
    apply (bool_decide_unpack _). vm_compute. exact I.
Defined.

(** X4: the comprehension that selects the cards of one suit returns, for a
    recognised suit, exactly the thirteen cards of that suit in rising rank
    order; for any other suit it returns the empty list. *)
Theorem cards_of_suit_by_rank (fuel : nat) (target_suit : string) :
  (52 < fuel)%nat ->
  (target_suit ∈ FrenchDeck.suits ->
   cards_of_suit fuel deck target_suit
   = Some (Ok ((fun r => mkCard r target_suit) <$> FrenchDeck.ranks))) /\
  (target_suit ∉ FrenchDeck.suits ->
   cards_of_suit fuel deck target_suit = Some (Ok [])).
Proof.
  intros Hfuel. unfold cards_of_suit.
  rewrite list_of_deck_all by (rewrite length_cards; exact Hfuel).
  cbn [with_cards]. split.
  - intros Hs%elem_of_suits_cases.
    repeat (apply elem_of_cons in Hs as [->|Hs];
            [vm_compute; reflexivity|]).
    by apply elem_of_nil in Hs.
  - intros Hs. do 2 f_equal. apply filter_none.
    intros c [_ Hc]%elem_of_cards Heq. apply Hs. by rewrite <- Heq.
Qed.

Lemma cards_of_suit_by_rank_witness :
  (52 < 60)%nat /\
  cards_of_suit 60 deck "hearts"
  = Some (Ok ((fun r => mkCard r "hearts") <$> FrenchDeck.ranks)) /\
  cards_of_suit 60 deck "rockets" = Some (Ok []).
Proof.
  split; [lia|]. split.
  - apply (cards_of_suit_by_rank 60 "hearts"); [lia|].
    apply (bool_decide_unpack _). vm_compute. exact I.
  - apply (cards_of_suit_by_rank 60 "rockets"); [lia|].
    apply (bool_decide_unpack _). vm_compute. exact I.
Defined.

Lemma elem_of_suits_of_cards (s : string) :
  s ∈ suit <$> FrenchDeck._cards deck <-> s ∈ FrenchDeck.suits.
Proof.
  rewrite list_elem_of_fmap. split.
  - intros (c & -> & [_ Hs]%elem_of_cards). exact Hs.
  - intros Hs. exists (mkCard "2" s). split; [reflexivity|].
    apply elem_of_cards. split; [|exact Hs].
    rewrite ranks_eval. simpl. left.
Qed.

Lemma elem_of_ranks_of_cards (r : string) :
  r ∈ rank <$> FrenchDeck._cards deck <-> r ∈ FrenchDeck.ranks.
Proof.
  rewrite list_elem_of_fmap. split.
  - intros (c & -> & [Hr _]%elem_of_cards). exact Hr.
  - intros Hr. exists (mkCard r "spades"). split; [reflexivity|].
    apply elem_of_cards. split; [exact Hr|].
    rewrite suits_eval. simpl. left.
Qed.

(** X5: the set of suits met in the deck is the set of the four declared
    suits and the set of ranks met is the set of the thirteen declared
    ranks: nothing is missing and nothing else occurs. *)
Theorem suits_and_ranks_in_deck (fuel : nat) :
  (52 < fuel)%nat ->
  exists Ss Rs : gset string,
    suits_in_deck fuel deck = Some (Ok Ss) /\
    ranks_in_deck fuel deck = Some (Ok Rs) /\
    size Ss = 4%nat /\ size Rs = 13%nat /\
    (forall s : string, s ∈ Ss <-> s ∈ FrenchDeck.suits) /\
    (forall r : string, r ∈ Rs <-> r ∈ FrenchDeck.ranks).
Proof.
  intros Hfuel.
  exists (list_to_set (suit <$> FrenchDeck._cards deck)),
         (list_to_set (rank <$> FrenchDeck._cards deck)).
  assert (HS : list_to_set (suit <$> FrenchDeck._cards deck)
               =@{gset string} list_to_set FrenchDeck.suits).
  { apply set_eq. intros s. rewrite !elem_of_list_to_set.
    apply elem_of_suits_of_cards. }
  assert (HR : list_to_set (rank <$> FrenchDeck._cards deck)
               =@{gset string} list_to_set FrenchDeck.ranks).
  { apply set_eq. intros r. rewrite !elem_of_list_to_set.
    apply elem_of_ranks_of_cards. }
  unfold suits_in_deck, ranks_in_deck.
  rewrite list_of_deck_all by (rewrite length_cards; exact Hfuel).
  cbn [with_cards]. split_and!.
  - reflexivity.
  - reflexivity.
  - rewrite HS, (size_list_to_set _ NoDup_suits). apply length_suits.
  - rewrite HR, (size_list_to_set _ NoDup_ranks). apply length_ranks.
  - intros s. rewrite elem_of_list_to_set. apply elem_of_suits_of_cards.
  - intros r. rewrite elem_of_list_to_set. apply elem_of_ranks_of_cards.
Qed.

Lemma suits_and_ranks_in_deck_witness :
  (52 < 53)%nat /\
  exists Ss Rs : gset string,
    suits_in_deck 53 deck = Some (Ok Ss) /\
    ranks_in_deck 53 deck = Some (Ok Rs) /\
    size Ss = 4%nat /\ size Rs = 13%nat /\
    (forall s : string, s ∈ Ss <-> s ∈ FrenchDeck.suits) /\
    (forall r : string, r ∈ Rs <-> r ∈ FrenchDeck.ranks).
Proof.
  split; [lia|]. apply (suits_and_ranks_in_deck 53). lia.
Defined.

(** ** Highest and lowest card *)

Section best_by_Z.
Context {A : Type} (key : A -> result Z) (val : A -> Z).

(** The loop ends on an item of the candidates whose value nothing seen
    exceeds; the candidate is kept on a tie. *)
Lemma max_loop_spec (l : list A) (best : A) :
  (forall x, x ∈ l -> key x = Ok (val x)) ->
  exists m,
    best_loop Z.gtb key best (val best) l = Ok m /\
    (m = best \/ m ∈ l) /\
    val best <= val m /\
    (forall x, x ∈ l -> val x <= val m).
Proof.
  revert best. induction l as [|x l IH]; intros best Hkey.
  - exists best. split_and!; [reflexivity | by left | lia |].
    intros x Hx. by apply elem_of_nil in Hx.
  - assert (Hl : forall y, y ∈ l -> key y = Ok (val y))
      by (intros y Hy; apply Hkey; by right).
    cbn [best_loop]. rewrite (Hkey x) by left. unfold mbind, result_bind.
    destruct (Z.gtb_spec (val x) (val best)) as [Hgt|Hle].
    + destruct (IH x Hl) as (m & Hm & Hin & Hbest & Hall).
      exists m. split_and!; [exact Hm | | lia |].
      * right. destruct Hin as [->|Hin]; [left | by right].
      * intros y [->|Hy]%elem_of_cons; [exact Hbest | by apply Hall].
    + destruct (IH best Hl) as (m & Hm & Hin & Hbest & Hall).
      exists m. split_and!; [exact Hm | | exact Hbest |].
      * destruct Hin as [->|Hin]; [by left | right; by right].
      * intros y [->|Hy]%elem_of_cons; [lia | by apply Hall].
Qed.

Lemma min_loop_spec (l : list A) (best : A) :
  (forall x, x ∈ l -> key x = Ok (val x)) ->
  exists m,
    best_loop Z.ltb key best (val best) l = Ok m /\
    (m = best \/ m ∈ l) /\
    val m <= val best /\
    (forall x, x ∈ l -> val m <= val x).
Proof.
  revert best. induction l as [|x l IH]; intros best Hkey.
  - exists best. split_and!; [reflexivity | by left | lia |].
    intros x Hx. by apply elem_of_nil in Hx.
  - assert (Hl : forall y, y ∈ l -> key y = Ok (val y))
      by (intros y Hy; apply Hkey; by right).
    cbn [best_loop]. rewrite (Hkey x) by left. unfold mbind, result_bind.
    destruct (Z.ltb_spec (val x) (val best)) as [Hlt|Hle].
    + destruct (IH x Hl) as (m & Hm & Hin & Hbest & Hall).
      exists m. split_and!; [exact Hm | | lia |].
      * right. destruct Hin as [->|Hin]; [left | by right].
      * intros y [->|Hy]%elem_of_cons; [exact Hbest | by apply Hall].
    + destruct (IH best Hl) as (m & Hm & Hin & Hbest & Hall).
      exists m. split_and!; [exact Hm | | exact Hbest |].
      * destruct Hin as [->|Hin]; [by left | right; by right].
      * intros y [->|Hy]%elem_of_cons; [lia | by apply Hall].
Qed.

Lemma max_key_spec (l : list A) :
  l <> [] -> (forall x, x ∈ l -> key x = Ok (val x)) ->
  exists m, max_key key l = Ok m /\ m ∈ l /\ forall x, x ∈ l -> val x <= val m.
Proof.
  destruct l as [|x l]; [done|]. intros _ Hkey.
  unfold max_key, best_by. rewrite (Hkey x) by left.
  unfold mbind, result_bind.
  destruct (max_loop_spec l x) as (m & Hm & Hin & Hbest & Hall);
    [intros y Hy; apply Hkey; by right|].
  exists m. split_and!; [exact Hm | |].
  - destruct Hin as [->|Hin]; [left | by right].
  - intros y [->|Hy]%elem_of_cons; [exact Hbest | by apply Hall].
Qed.

Lemma min_key_spec (l : list A) :
  l <> [] -> (forall x, x ∈ l -> key x = Ok (val x)) ->
  exists m, min_key key l = Ok m /\ m ∈ l /\ forall x, x ∈ l -> val m <= val x.
Proof.
  destruct l as [|x l]; [done|]. intros _ Hkey.
  unfold min_key, best_by. rewrite (Hkey x) by left.
  unfold mbind, result_bind.
  destruct (min_loop_spec l x) as (m & Hm & Hin & Hbest & Hall);
    [intros y Hy; apply Hkey; by right|].
  exists m. split_and!; [exact Hm | |].
  - destruct Hin as [->|Hin]; [left | by right].
  - intros y [->|Hy]%elem_of_cons; [exact Hbest | by apply Hall].
Qed.

End best_by_Z.

(** Every card of the deck has a value, between 0 and 51. *)
Lemma spades_high_value (d : FrenchDeck.t) (c : Card) :
  c ∈ FrenchDeck._cards deck ->
  exists v, FrenchDeck.spades_high d c = Ok v /\ 0 <= v <= 51.
Proof.
  intros [Hr Hs]%elem_of_cards.
  destruct (spades_high_decompose d c Hr Hs) as (i & w & _ & Hi & _ & Hw & Hv).
  exists (Z.of_nat i * 4 + w). split; [exact Hv | lia].
Qed.

Lemma spades_high_inj (d : FrenchDeck.t) (c1 c2 : Card) (v : Z) :
  c1 ∈ FrenchDeck._cards deck -> c2 ∈ FrenchDeck._cards deck ->
  FrenchDeck.spades_high d c1 = Ok v -> FrenchDeck.spades_high d c2 = Ok v ->
  c1 = c2.
Proof.
  intros [Hr1 Hs1]%elem_of_cards [Hr2 Hs2]%elem_of_cards Hv1 Hv2.
  destruct (spades_high_decompose d c1 Hr1 Hs1)
    as (i1 & w1 & Hi1 & _ & Hw1 & Hb1 & He1).
  destruct (spades_high_decompose d c2 Hr2 Hs2)
    as (i2 & w2 & Hi2 & _ & Hw2 & Hb2 & He2).
  rewrite He1 in Hv1. rewrite He2 in Hv2.
  injection Hv1 as Hv1. injection Hv2 as Hv2.
  assert (i1 = i2) as -> by lia. assert (w1 = w2) as -> by lia.
  destruct c1 as [r1 s1], c2 as [r2 s2]; simpl in *. f_equal.
  - congruence.
  - by eapply suit_weight_inj.
Qed.

(** X6: [max(deck, key=deck.spades_high)] is the ace of spades and
    [min(deck, key=deck.spades_high)] is the two of clubs: both calls end
    without raising, every card of the deck has a value between theirs (0 and
    51), and no other card has the value 51 or the value 0. *)
Theorem highest_and_lowest_card (fuel : nat) :
  (52 < fuel)%nat ->
  highest_card fuel deck = Some (Ok (mkCard "A" "spades")) /\
  lowest_card fuel deck = Some (Ok (mkCard "2" "clubs")) /\
  forall c : Card,
    c ∈ FrenchDeck._cards deck ->
    exists v,
      FrenchDeck.spades_high deck c = Ok v /\ 0 <= v <= 51 /\
      (v = 51 -> c = mkCard "A" "spades") /\
      (v = 0 -> c = mkCard "2" "clubs").
Proof.
  intros Hfuel.
  set (val := fun c => match FrenchDeck.spades_high deck c with
                       | inr v => v
                       | inl _ => 0
                       end).
  assert (Hkey : forall c, c ∈ FrenchDeck._cards deck ->
                           FrenchDeck.spades_high deck c = Ok (val c)).
  { intros c Hc. destruct (spades_high_value deck c Hc) as (v & Hv & _).
    unfold val. rewrite Hv. reflexivity. }
  clearbody val.
  assert (Hne : FrenchDeck._cards deck <> []).
  { intros Hnil. pose proof length_cards as Hlen. rewrite Hnil in Hlen.
    discriminate. }
  assert (Hace : mkCard "A" "spades" ∈ FrenchDeck._cards deck)
    by (apply (bool_decide_unpack _); vm_compute; exact I).
  assert (Htwo : mkCard "2" "clubs" ∈ FrenchDeck._cards deck)
    by (apply (bool_decide_unpack _); vm_compute; exact I).
  assert (Hace_v : FrenchDeck.spades_high deck (mkCard "A" "spades") = Ok 51)
    by (vm_compute; reflexivity).
  assert (Htwo_v : FrenchDeck.spades_high deck (mkCard "2" "clubs") = Ok 0)
    by (vm_compute; reflexivity).
  unfold highest_card, lowest_card.
  rewrite list_of_deck_all by (rewrite length_cards; exact Hfuel).
  cbn [with_cards]. split_and!.
  - destruct (max_key_spec _ val _ Hne Hkey) as (m & Hm & Hin & Hall).
    rewrite Hm. do 2 f_equal.
    destruct (spades_high_value deck m Hin) as (v & Hv & Hrange).
    pose proof (Hall _ Hace) as Hle.
    pose proof (Hkey _ Hin) as Hmv. pose proof (Hkey _ Hace) as Hav.
    rewrite Hace_v in Hav. injection Hav as Hav.
    rewrite Hv in Hmv. injection Hmv as Hmv.
    apply (spades_high_inj deck m _ 51 Hin Hace); [|exact Hace_v].
    rewrite Hv. f_equal. lia.
  - destruct (min_key_spec _ val _ Hne Hkey) as (m & Hm & Hin & Hall).
    rewrite Hm. do 2 f_equal.
    destruct (spades_high_value deck m Hin) as (v & Hv & Hrange).
    pose proof (Hall _ Htwo) as Hle.
    pose proof (Hkey _ Hin) as Hmv. pose proof (Hkey _ Htwo) as Htv.
    rewrite Htwo_v in Htv. injection Htv as Htv.
    rewrite Hv in Hmv. injection Hmv as Hmv.
    apply (spades_high_inj deck m _ 0 Hin Htwo); [|exact Htwo_v].
    rewrite Hv. f_equal. lia.
  - intros c Hc. destruct (spades_high_value deck c Hc) as (v & Hv & Hrange).
    exists v. split_and!; [exact Hv | lia | lia | |].
    + intros ->. by apply (spades_high_inj deck c _ 51 Hc Hace).
    + intros ->. by apply (spades_high_inj deck c _ 0 Hc Htwo).
Qed.

Lemma highest_and_lowest_card_witness :
  (52 < 53)%nat /\
  highest_card 53 deck = Some (Ok (mkCard "A" "spades")) /\
  lowest_card 53 deck = Some (Ok (mkCard "2" "clubs")).
Proof.
  split; [lia|].
  destruct (highest_and_lowest_card 53) as (Hmax & Hmin & _); [lia|].
  split; [exact Hmax | exact Hmin].
Defined.


(** X7: ordered by the rank string the extremes are not the ace and the
    two.  [max(deck, key=lambda card: card.rank)] is the queen of spades: no
    rank string of the deck is greater than "Q", and of the four queens the
    one met first (position 10) is kept.  [min(...)] is the ten of spades: no
    rank string is smaller than "10", which starts with the character 1. *)
Theorem alphabetical_extremes (fuel : nat) :
  (52 < fuel)%nat ->
  highest_rank_alphabetically fuel deck = Some (Ok (mkCard "Q" "spades")) /\
  lowest_rank_alphabetically fuel deck = Some (Ok (mkCard "10" "spades")) /\
  (forall c : Card,
      c ∈ FrenchDeck._cards deck ->
      str_gt (rank c) "Q" = false /\ str_lt (rank c) "10" = false) /\
  FrenchDeck._cards deck !! 10%nat = Some (mkCard "Q" "spades") /\
  FrenchDeck._cards deck !! 8%nat = Some (mkCard "10" "spades") /\
  (forall c : Card,
      c ∈ take 10 (FrenchDeck._cards deck) -> rank c <> "Q") /\
  (forall c : Card,
      c ∈ take 8 (FrenchDeck._cards deck) -> rank c <> "10").
Proof.
  intros Hfuel.
  unfold highest_rank_alphabetically, lowest_rank_alphabetically.
  rewrite list_of_deck_all by (rewrite length_cards; exact Hfuel).
  cbn [with_cards]. split_and!; try (vm_compute; reflexivity).
  - apply Forall_forall. apply (bool_decide_unpack _). vm_compute. exact I.
  - apply Forall_forall. apply (bool_decide_unpack _). vm_compute. exact I.
  - apply Forall_forall. apply (bool_decide_unpack _). vm_compute. exact I.
Qed.

Lemma alphabetical_extremes_witness :
  (52 < 53)%nat /\
  highest_rank_alphabetically 53 deck = Some (Ok (mkCard "Q" "spades")) /\
  lowest_rank_alphabetically 53 deck = Some (Ok (mkCard "10" "spades")).
Proof.
  split; [lia|].
  destruct (alphabetical_extremes 53) as (Hmax & Hmin & _); [lia|].
  split; [exact Hmax | exact Hmin].
Defined.

(** ** Slices with an open bound *)

Section open_slices.
Context {A : Type}.
Implicit Types (l : list A) (n : Z).

Lemma list_getslice_upto l n :
  list_getslice l None (Some n)
  = take (Z.to_nat (adjust_index (Z.of_nat (length l)) n)) l.
Proof.
  unfold list_getslice, slice_start, slice_stop. cbv zeta.
  rewrite Z.sub_0_r. reflexivity.
Qed.

Lemma list_getslice_from l n :
  list_getslice l (Some n) None
  = drop (Z.to_nat (adjust_index (Z.of_nat (length l)) n)) l.
Proof.
  unfold list_getslice, slice_start, slice_stop. cbv zeta.
  pose proof (adjust_index_bounds (Z.of_nat (length l)) n ltac:(lia)).
  apply take_ge. rewrite length_drop. lia.
Qed.

Lemma list_getslice_split l n :
  list_getslice l None (Some n) ++ list_getslice l (Some n) None = l.
Proof. rewrite list_getslice_upto, list_getslice_from. apply take_drop. Qed.

Lemma list_getslice_tail l n :
  1 <= n <= Z.of_nat (length l) ->
  list_getslice l (Some (- n)) None = drop (length l - Z.to_nat n) l.
Proof.
  intros Hn. rewrite list_getslice_from. f_equal.
  unfold adjust_index. ztests.
Qed.

Lemma list_getslice_tail_0 l : list_getslice l (Some (- 0)) None = l.
Proof.
  rewrite list_getslice_from. unfold adjust_index.
  change (- 0) with 0. change (0 <? 0) with false. cbv iota.
  destruct (Z.leb_spec (Z.of_nat (length l)) 0) as [Hle|Hgt]; [|reflexivity].
  destruct l; [reflexivity | simpl in Hle; lia].
Qed.

End open_slices.

(** X8: for every deck and every integer [n], positive, negative or beyond
    the ends, [deck[:n]] and [deck[n:]] both return without raising and
    together they are the whole card sequence, in order: [deck[:n] +
    deck[n:]] is [list(deck)]. *)
Theorem open_slices_split (d : FrenchDeck.t) (n : Z) :
  exists a b : list Card,
    FrenchDeck.__getitem__ d (Slice None (Some n)) = Ok (Cards a) /\
    FrenchDeck.__getitem__ d (Slice (Some n) None) = Ok (Cards b) /\
    a = deck_upto d n /\ b = deck_from d n /\
    a ++ b = FrenchDeck._cards d /\
    (length a + length b = length (FrenchDeck._cards d))%nat.
Proof.
  exists (deck_upto d n), (deck_from d n).
  assert (Hsplit : deck_upto d n ++ deck_from d n = FrenchDeck._cards d)
    by apply list_getslice_split.
  split_and!; try reflexivity; [exact Hsplit|].
  rewrite <- length_app, Hsplit. reflexivity.
Qed.

(** X9: [list(reversed(deck[-n:]))] for [n] from 1 to 52 is the first [n]
    cards of the reversed deck, so it has [n] cards; but for [n = 0] the
    slice [deck[-0:]] is the whole deck, and the result has 52 cards. *)
Theorem reversed_tail_prefix (n : Z) :
  1 <= n <= 52 ->
  reversed_tail deck n = take (Z.to_nat n) (reverse (FrenchDeck._cards deck)) /\
  length (reversed_tail deck n) = Z.to_nat n /\
  reversed deck = Ok (ACard <$> reverse (FrenchDeck._cards deck)) /\
  reversed_tail deck 0 = reverse (FrenchDeck._cards deck) /\
  length (reversed_tail deck 0) = 52%nat.
Proof.
  intros Hn.
  assert (Hlen : length (FrenchDeck._cards deck) = 52%nat) by apply length_cards.
  assert (Htail : reversed_tail deck n
                  = take (Z.to_nat n) (reverse (FrenchDeck._cards deck))).
  { unfold reversed_tail, getslice.
    rewrite list_getslice_tail by (rewrite Hlen; lia).
    rewrite reverse_drop. f_equal. rewrite Hlen. lia. }
  assert (Hzero : reversed_tail deck 0 = reverse (FrenchDeck._cards deck)).
  { unfold reversed_tail, getslice. by rewrite list_getslice_tail_0. }
  split_and!.
  - exact Htail.
  - rewrite Htail, length_take, length_reverse, Hlen. lia.
  - apply reversed_all.
  - exact Hzero.
  - rewrite Hzero, length_reverse. exact Hlen.
Qed.

Lemma reversed_tail_prefix_witness :
  1 <= 3 <= 52 /\
  reversed_tail deck 3 = take (Z.to_nat 3) (reverse (FrenchDeck._cards deck)).
Proof.
  split; [lia|]. apply (reversed_tail_prefix 3). lia.
Defined.

(** * unpacking_examples.py *)

Module UnpackingFacts.
Import Unpacking.

(** ** Strings *)

Lemma append_nil_r (s : string) : s +:+ "" = s.
Proof.
  induction s as [|a s IH]; [reflexivity|].
  change (String a s +:+ "") with (String a (s +:+ "")). by rewrite IH.
Qed.

Lemma append_assoc (s t u : string) : (s +:+ t) +:+ u = s +:+ (t +:+ u).
Proof.
  induction s as [|a s IH]; [reflexivity|].
  change ((String a s +:+ t) +:+ u) with (String a ((s +:+ t) +:+ u)).
  change (String a s +:+ (t +:+ u)) with (String a (s +:+ (t +:+ u))).
  by rewrite IH.
Qed.

Lemma has_char_count (c : ascii) (s : string) :
  has_char c s = false <-> count_char c s = 0%nat.
Proof.
  induction s as [|a s IH]; [done|]. simpl.
  destruct (decide (a = c)); [split; discriminate | exact IH].
Qed.

(** ** [split] and [join] *)

Lemma split_char_nonempty (sep : ascii) (s : string) : split_char sep s <> [].
Proof.
  induction s as [|a s IH]; [done|]. simpl.
  destruct (decide (a = sep)); [done|]. by destruct (split_char sep s).
Qed.

Lemma length_split_char (sep : ascii) (s : string) :
  length (split_char sep s) = S (count_char sep s).
Proof.
  induction s as [|a s IH]; [reflexivity|]. simpl.
  destruct (decide (a = sep)); [simpl; by rewrite IH|].
  pose proof (split_char_nonempty sep s).
  destruct (split_char sep s) as [|w ws]; [done | exact IH].
Qed.

Lemma split_char_no_sep (sep : ascii) (s : string) :
  Forall (fun w => has_char sep w = false) (split_char sep s).
Proof.
  induction s as [|a s IH]; [by repeat constructor|]. simpl.
  destruct (decide (a = sep)) as [->|Hne]; [by constructor|].
  destruct (split_char sep s) as [|w ws]; simpl.
  - repeat constructor. simpl. by rewrite decide_False.
  - inversion IH as [|? ? Hw Hws]; subst. constructor; [|exact Hws].
    simpl. by rewrite decide_False.
Qed.

Lemma split_char_absent (sep : ascii) (s : string) :
  has_char sep s = false -> split_char sep s = [s].
Proof.
  induction s as [|a s IH]; [reflexivity|]. simpl.
  destruct (decide (a = sep)); [discriminate|].
  intros Hs. by rewrite (IH Hs).
Qed.

Lemma join_cons_String (sep : string) (a : ascii) (w : string) (ws : list string) :
  join sep (String a w :: ws) = String a (join sep (w :: ws)).
Proof. destruct ws; reflexivity. Qed.

Lemma join_split_char (sep : ascii) (s : string) :
  join (String sep "") (split_char sep s) = s.
Proof.
  induction s as [|a s IH]; [reflexivity|]. cbn [split_char].
  pose proof (split_char_nonempty sep s) as Hne.
  destruct (decide (a = sep)) as [->|Hneq].
  - destruct (split_char sep s) as [|w ws]; [done|].
    change (join (String sep "") ("" :: w :: ws))
      with (String sep (join (String sep "") (w :: ws))).
    by rewrite IH.
  - destruct (split_char sep s) as [|w ws]; [done|].
    rewrite join_cons_String. by rewrite IH.
Qed.

Lemma join_snoc (sep : string) (init : list string) (x : string) :
  init <> [] ->
  join sep (init ++ [x]) = join sep init +:+ sep +:+ x.
Proof.
  induction init as [|y init IH]; [done|]. intros _.
  destruct init as [|z init]; [reflexivity|].
  change (join sep ((y :: z :: init) ++ [x]))
    with (y +:+ sep +:+ join sep ((z :: init) ++ [x])).
  rewrite IH by done.
  change (join sep (y :: z :: init)) with (y +:+ sep +:+ join sep (z :: init)).
  by rewrite !append_assoc.
Qed.

(** ** Unpacking targets *)

Lemma unpack_star_last_snoc {A : Type} (l : list A) :
  l <> [] ->
  exists init x, unpack_star_last l = Ok (init, x) /\ l = init ++ [x].
Proof.
  intros Hne. apply last_is_Some in Hne as [x Hx].
  pose proof Hx as [init ->]%last_Some.
  exists init, x. split; [|reflexivity].
  unfold unpack_star_last. rewrite Hx, length_app. simpl.
  replace (length init + 1 - 1)%nat with (length init) by lia.
  by rewrite take_app_length.
Qed.

(** ** [rsplit] *)

Lemma rsplit_last_None (sep : ascii) (s : string) :
  rsplit_last sep s = None <-> has_char sep s = false.
Proof.
  induction s as [|a s IH]; [done|]. simpl.
  destruct (rsplit_last sep s) as [[b t]|].
  - destruct (decide (a = sep)); [done|].
    split; [done|]. intros Hs. apply IH in Hs. discriminate.
  - destruct (decide (a = sep)); [done|]. split; [|done]. intros _. by apply IH.
Qed.

Lemma rsplit_last_Some (sep : ascii) (s before after : string) :
  rsplit_last sep s = Some (before, after) ->
  s = before +:+ String sep after /\ has_char sep after = false.
Proof.
  revert before. induction s as [|a s IH]; intros before; [done|]. simpl.
  destruct (rsplit_last sep s) as [[b t]|] eqn:Hs.
  - intros [= <- <-]. destruct (IH b eq_refl) as [-> Ht]. done.
  - destruct (decide (a = sep)) as [->|]; [|done].
    intros [= <- <-]. split; [reflexivity|]. by apply rsplit_last_None.
Qed.

End UnpackingFacts.

(** ** Star unpacking *)

(** X10: [first, *middle, last = numbers] succeeds exactly when the sequence
    has at least two items; then putting [first], [middle] and [last] back
    together gives the sequence, and [middle] is two items shorter; with fewer
    than two items it raises [ValueError]. *)
Theorem first_middle_last_roundtrip {A : Type} (numbers : list A) :
  ((2 <= length numbers)%nat ->
   exists (first : A) (middle : list A) (last : A),
     Unpacking.first_middle_last numbers = Ok (first, middle, last) /\
     numbers = first :: middle ++ [last] /\
     length middle = (length numbers - 2)%nat) /\
  ((length numbers < 2)%nat ->
   Unpacking.first_middle_last numbers = Raise ValueError).
Proof.
  unfold Unpacking.first_middle_last, Unpacking.unpack_first_star_last.
  destruct numbers as [|x rest]; [split; [simpl; lia | reflexivity]|].
  destruct (decide (rest = [])) as [->|Hne].
  - split; [simpl; lia | reflexivity].
  - split; [|simpl; destruct rest; [done | simpl; lia]].
    intros _. apply last_is_Some in Hne as [y Hy].
    pose proof Hy as [middle ->]%last_Some.
    exists x, middle, y. rewrite Hy, length_app. simpl.
    replace (length middle + 1 - 1)%nat with (length middle) by lia.
    rewrite take_app_length.
    split_and!; [reflexivity | reflexivity | rewrite length_app; simpl; lia].
Qed.

Lemma first_middle_last_roundtrip_witness :
  (exists (first : Z) (middle : list Z) (last : Z),
      Unpacking.first_middle_last [1; 2; 3; 4; 5; 6] = Ok (first, middle, last) /\
      [1; 2; 3; 4; 5; 6] = first :: middle ++ [last] /\
      length middle = (length [1; 2; 3; 4; 5; 6] - 2)%nat) /\
  Unpacking.first_middle_last [7] = Raise ValueError.
Proof.
  split.
  - apply (first_middle_last_roundtrip [1; 2; 3; 4; 5; 6]). simpl. lia.
  - apply (first_middle_last_roundtrip [7]). simpl. lia.
Defined.

(** ** Rows of comma-separated text *)

(** X11: [first, last, position, salary = line.split(',')] succeeds exactly
    when the line holds three commas, and raises [ValueError] otherwise.
    When it succeeds no field holds a comma and the four fields joined by
    commas are the line. *)
Theorem csv_fields_three_commas (line : string) :
  ((exists f, Unpacking.csv_fields line = Ok f)
   <-> Unpacking.count_char "," line = 3%nat) /\
  (Unpacking.count_char "," line <> 3%nat ->
   Unpacking.csv_fields line = Raise ValueError) /\
  (forall first last position salary : string,
      Unpacking.csv_fields line = Ok (first, last, position, salary) ->
      line = first +:+ "," +:+ last +:+ "," +:+ position +:+ "," +:+ salary /\
      Forall (fun w => Unpacking.has_char "," w = false)
        [first; last; position; salary]).
Proof.
  unfold Unpacking.csv_fields.
  pose proof (UnpackingFacts.length_split_char "," line) as Hlen.
  pose proof (UnpackingFacts.join_split_char "," line) as Hjoin.
  pose proof (UnpackingFacts.split_char_no_sep "," line) as Hno.
  assert (Hother : forall l : list string,
             length l <> 4%nat -> Unpacking.unpack4 l = Raise ValueError).
  { intros [|a [|b [|c [|d [|e l]]]]] Hl; try reflexivity. by destruct Hl. }
  destruct (decide (Unpacking.count_char "," line = 3%nat)) as [Hc|Hc].
  - rewrite Hc in Hlen.
    destruct (Unpacking.split_char "," line) as [|a [|b [|c [|d [|e l]]]]];
      try discriminate Hlen.
    split_and!.
    + split; [done | intros _; by eexists].
    + done.
    + intros w x y z [= <- <- <- <-]. split; [|exact Hno].
      rewrite <- Hjoin. reflexivity.
  - assert (Hraise : Unpacking.unpack4 (Unpacking.split_char "," line)
                     = Raise ValueError) by (apply Hother; lia).
    rewrite Hraise. split_and!.
    + split; [intros [f Hf]; discriminate Hf | done].
    + done.
    + intros w x y z Hf. discriminate Hf.
Qed.

Lemma csv_fields_three_commas_witness :
  Unpacking.csv_fields "John,Doe,Engineer" = Raise ValueError /\
  ("John,Doe,Engineer,75000"
   = "John" +:+ "," +:+ "Doe" +:+ "," +:+ "Engineer" +:+ "," +:+ "75000" /\
   Forall (fun w => Unpacking.has_char "," w = false)
     ["John"; "Doe"; "Engineer"; "75000"]).
Proof.
  split.
  - apply (csv_fields_three_commas "John,Doe,Engineer"). vm_compute. lia.
  - apply (csv_fields_three_commas "John,Doe,Engineer,75000"). reflexivity.
Defined.

(** ** File paths *)

Lemma path_split (path : string) :
  exists (directories : list string) (filename : string),
    Unpacking.unpack_star_last (Unpacking.split_char "/" path)
    = Ok (directories, filename) /\
    Unpacking.has_char "/" filename = false /\
    (Unpacking.has_char "/" path = true ->
     Unpacking.join "/" directories +:+ "/" +:+ filename = path) /\
    (Unpacking.has_char "/" path = false ->
     directories = [] /\ filename = path).
Proof.
  destruct (UnpackingFacts.unpack_star_last_snoc
              (Unpacking.split_char "/" path)
              (UnpackingFacts.split_char_nonempty "/" path))
    as (dirs & fn & Hun & Hsplit).
  pose proof (UnpackingFacts.split_char_no_sep "/" path) as Hno.
  pose proof (UnpackingFacts.join_split_char "/" path) as Hjoin.
  pose proof (UnpackingFacts.length_split_char "/" path) as Hlen.
  exists dirs, fn. split_and!.
  - exact Hun.
  - rewrite Hsplit, Forall_app, Forall_singleton in Hno. apply Hno.
  - intros Hhas. rewrite <- Hjoin, Hsplit.
    symmetry. apply UnpackingFacts.join_snoc. intros ->.
    rewrite Hsplit in Hlen. simpl in Hlen. injection Hlen as Hlen.
    symmetry in Hlen. apply UnpackingFacts.has_char_count in Hlen. congruence.
  - intros Hhas.
    rewrite (UnpackingFacts.split_char_absent "/" path Hhas) in Hsplit.
    destruct dirs as [|x dirs]; [by injection Hsplit as <-|].
    destruct dirs; discriminate.
Qed.

Lemma name_extension (filename : string) :
  exists name extension : string,
    (if Unpacking.has_char "." filename
     then Unpacking.unpack2 (Unpacking.rsplit1 "." filename)
     else Ok (filename, EmptyString)) = Ok (name, extension) /\
    (Unpacking.has_char "." filename = true ->
     name +:+ "." +:+ extension = filename /\
     Unpacking.has_char "." extension = false) /\
    (Unpacking.has_char "." filename = false ->
     name = filename /\ extension = EmptyString).
Proof.
  destruct (Unpacking.has_char "." filename) eqn:Hhas.
  - unfold Unpacking.rsplit1.
    destruct (Unpacking.rsplit_last "." filename) as [[b a]|] eqn:Hr.
    + apply UnpackingFacts.rsplit_last_Some in Hr as [-> Ha].
      exists b, a. split_and!; [reflexivity | done | done].
    + apply UnpackingFacts.rsplit_last_None in Hr. congruence.
  - exists filename, EmptyString. split_and!; [reflexivity | done | done].
Qed.

(** X12: for every path the loop body binds [directories] and [filename]
    without raising.  The file name holds no slash.  If the path holds a
    slash, the directories joined by slashes, a slash and the file name give
    the path back; if it holds none, there are no directories and the file
    name is the whole path. *)
Theorem path_parts_directories (path : string) :
  exists (directories : list string) (filename name extension : string),
    Unpacking.path_parts path = Ok (directories, filename, name, extension) /\
    Unpacking.has_char "/" filename = false /\
    (Unpacking.has_char "/" path = true ->
     Unpacking.join "/" directories +:+ "/" +:+ filename = path) /\
    (Unpacking.has_char "/" path = false ->
     directories = [] /\ filename = path).
Proof.
  destruct (path_split path) as (dirs & fn & Hun & Hno & Hyes & Hnone).
  destruct (name_extension fn) as (name & ext & Hne & _).
  exists dirs, fn, name, ext. split_and!; try done.
  unfold Unpacking.path_parts. rewrite Hun.
  unfold mbind at 1, result_bind. rewrite Hne. reflexivity.
Qed.

Lemma path_parts_directories_witness :
  exists (directories : list string) (filename name extension : string),
    Unpacking.path_parts "/var/log/system.log"
    = Ok (directories, filename, name, extension) /\
    Unpacking.has_char "/" filename = false /\
    (Unpacking.has_char "/" "/var/log/system.log" = true ->
     Unpacking.join "/" directories +:+ "/" +:+ filename
     = "/var/log/system.log") /\
    (Unpacking.has_char "/" "/var/log/system.log" = false ->
     directories = [] /\ filename = "/var/log/system.log").
Proof. apply (path_parts_directories "/var/log/system.log"). Defined.

(** X13: the split of the file name never raises (the test for a dot
    guards the two-target unpacking).  If the file name holds a dot, [name],
    a dot and [extension] give it back and [extension] holds no dot: the cut
    is at the last dot.  If it holds none, [name] is the file name and
    [extension] is empty. *)
Theorem path_parts_extension (path : string)
    (directories : list string) (filename name extension : string) :
  Unpacking.path_parts path = Ok (directories, filename, name, extension) ->
  (Unpacking.has_char "." filename = true ->
   name +:+ "." +:+ extension = filename /\
   Unpacking.has_char "." extension = false) /\
  (Unpacking.has_char "." filename = false ->
   name = filename /\ extension = EmptyString).
Proof.
  destruct (path_split path) as (dirs & fn & Hun & _).
  destruct (name_extension fn) as (nm & ext & Hne & Hdot & Hnodot).
  unfold Unpacking.path_parts. rewrite Hun.
  unfold mbind at 1, result_bind. rewrite Hne.
  intros [= <- <- <- <-]. split; [exact Hdot | exact Hnodot].
Qed.

Lemma path_parts_extension_witness :
  Unpacking.path_parts "/srv/backup.tar.gz"
  = Ok (["" ; "srv"], "backup.tar.gz", "backup.tar", "gz") /\
  (Unpacking.has_char "." "backup.tar.gz" = true ->
   "backup.tar" +:+ "." +:+ "gz" = "backup.tar.gz" /\
   Unpacking.has_char "." "gz" = false).
Proof.
  assert (H : Unpacking.path_parts "/srv/backup.tar.gz"
              = Ok (["" ; "srv"], "backup.tar.gz", "backup.tar", "gz"))
    by reflexivity.
  split; [exact H|].
  apply (path_parts_extension _ _ _ _ _ H).
Defined.

(** X14: the text the loop body writes for a path.  It is "Path: " and a
    prefix [p], an end of line, "File: " and a text [f], an end of line, and
    one more end of line.  [p] is the bound directories joined by slashes
    and a closing slash, and [f] is [name], a dot and [extension].  When the
    path holds a slash, [p] is the path up to and including its last slash
    ([p] ends with a slash and the text after it in the path holds none);
    when the path holds no slash, [p] is "/" all the same.  [f] is the rest
    of the path, with a dot appended when the rest holds no dot. *)
Theorem file_analysis_output (path : string) :
  exists (directories : list string) (filename name extension p f : string),
    Unpacking.path_parts path = Ok (directories, filename, name, extension) /\
    p = Unpacking.join "/" directories +:+ "/" /\
    f = name +:+ "." +:+ extension /\
    Unpacking.file_analysis path
    = Ok (("Path: " +:+ p) +:+ Unpacking.newline +:+
          ("File: " +:+ f) +:+ Unpacking.newline +:+
          Unpacking.newline) /\
    Unpacking.has_char "/" filename = false /\
    (Unpacking.has_char "/" path = true ->
     (exists q, p = q +:+ "/") /\ p +:+ filename = path) /\
    (Unpacking.has_char "/" path = false -> p = "/" /\ filename = path) /\
    (Unpacking.has_char "." filename = true -> f = filename) /\
    (Unpacking.has_char "." filename = false -> f = filename +:+ ".").
Proof.
  destruct (path_split path) as (dirs & fn & Hun & Hno & Hyes & Hnone).
  destruct (name_extension fn) as (nm & ext & Hne & Hdot & Hnodot).
  assert (Hparts : Unpacking.path_parts path = Ok (dirs, fn, nm, ext)).
  { unfold Unpacking.path_parts. rewrite Hun.
    unfold mbind at 1, result_bind. rewrite Hne. reflexivity. }
  exists dirs, fn, nm, ext,
         (Unpacking.join "/" dirs +:+ "/"), (nm +:+ "." +:+ ext).
  split_and!.
  - exact Hparts.
  - reflexivity.
  - reflexivity.
  - unfold Unpacking.file_analysis. rewrite Hparts. reflexivity.
  - exact Hno.
  - intros Hhas. split; [by eexists|].
    rewrite UnpackingFacts.append_assoc. by apply Hyes.
  - intros Hhas. destruct (Hnone Hhas) as [-> ->]. done.
  - intros Hhas. by apply Hdot.
  - intros Hhas. destruct (Hnodot Hhas) as [-> ->]. reflexivity.
Qed.

Lemma file_analysis_output_witness :
  Unpacking.file_analysis "/var/log/system.log"
  = Ok (("Path: " +:+ "/var/log/") +:+ Unpacking.newline +:+
        ("File: " +:+ "system.log") +:+ Unpacking.newline +:+
        Unpacking.newline) /\
  exists (directories : list string) (filename name extension p f : string),
    Unpacking.path_parts "README" = Ok (directories, filename, name, extension) /\
    p = Unpacking.join "/" directories +:+ "/" /\
    f = name +:+ "." +:+ extension /\
    Unpacking.file_analysis "README"
    = Ok (("Path: " +:+ p) +:+ Unpacking.newline +:+
          ("File: " +:+ f) +:+ Unpacking.newline +:+
          Unpacking.newline) /\
    Unpacking.has_char "/" filename = false /\
    (Unpacking.has_char "/" "README" = true ->
     (exists q, p = q +:+ "/") /\ p +:+ filename = "README") /\
    (Unpacking.has_char "/" "README" = false -> p = "/" /\ filename = "README") /\
    (Unpacking.has_char "." filename = true -> f = filename) /\
    (Unpacking.has_char "." filename = false -> f = filename +:+ ".").
Proof.
  split; [reflexivity|]. apply (file_analysis_output "README").
Defined.
